(** * avr-sts-gemini: the audio framing pipeline, the upstream event
      handler, the tool dispatcher and the calendar time arithmetic.

    Shallow embedding of [index.js] (the WebSocket bridge), [loadTools.js]
    (the tool dispatcher) and [utils/google_calendar_helper.js] (the
    timestamps sent to the calendar API).

    Conventions.
    - A Node [Buffer] is a list of bytes, each a [Z] in [0, 256).
    - A JS number that only ever flows into [Int16Array.from] is kept as the
      [Z] that [ToInt16] sees after truncation; [ToInt16] wraps it.
    - The sample-rate converter ([@alexanderolsen/libsamplerate-js]) is a
      third-party library: it is an interface ([Converter]) whose [full]
      method threads the converter's internal state explicitly.
    - Base64 is a transport encoding only: messages carry decoded buffers.
    - JS exceptions are the [Throw] constructor of [Result].
    - A handler runs to completion before the next event is handled.
    - Console logging is left out. The optional archive of audio chunks
      ([saveAudioChunk], [audioFileHandles]) touches neither the variables
      nor the sockets of the handlers and is modelled on its own (module
      [Archive]). *)

From Equations Require Import Equations.
From Stdlib Require Import ZArith String Ascii Bool Arith Lia List.
From Stdlib Require Import DecimalString.
Import ListNotations.

Local Open Scope Z_scope.

(* ===================================================================== *)
(** ** PCM16 buffers and typed-array views                                *)
(* ===================================================================== *)

Module Pcm.

(** A Node [Buffer]: bytes in [0, 256). *)
Definition Buffer := list Z.

(** ECMAScript [ToInt16]: wrap modulo 2^16 into [-32768, 32767]. *)
Definition ToInt16 (z : Z) : Z :=
  let m := z mod 65536 in
  if 32768 <=? m then m - 65536 else m.

(** [new Int16Array(buf.buffer, buf.byteOffset, buf.length / 2)]: a
    little-endian view; the length argument goes through [ToIndex], so a
    trailing odd byte is not part of the view. *)
Fixpoint Int16Array_view (b : Buffer) : list Z :=
  match b with
  | lo :: hi :: tl => ToInt16 (lo + 256 * hi) :: Int16Array_view tl
  | _ => []
  end.

(** The two little-endian bytes of one [Int16Array] element. *)
Definition int16_bytes (z : Z) : Buffer :=
  let w := ToInt16 z mod 65536 in [w mod 256; w / 256].

(** [Buffer.from(Int16Array.from(frame).buffer)]. *)
Definition Buffer_from_Int16Array (frame : list Z) : Buffer :=
  flat_map int16_bytes frame.

End Pcm.
Import Pcm.

(* ===================================================================== *)
(** ** The sample-rate converter interface                                *)
(* ===================================================================== *)

(** [create(channels, from, to)] returns an object whose [full(data)] method
    converts one chunk and may keep history between calls. *)
Record Converter := {
  src_state : Type;
  full : src_state -> list Z -> src_state * list Z
}.

(** A converter that keeps every third sample of the stream, the phase being
    carried from one call to the next: the smallest 24 kHz -> 8 kHz converter
    with inter-call history. [phase] is the number of samples to skip before
    the next kept one. *)
Fixpoint decimate3 (phase : nat) (xs : list Z) : nat * list Z :=
  match xs with
  | [] => (phase, [])
  | x :: tl =>
      match phase with
      | O => let '(p, out) := decimate3 2 tl in (p, x :: out)
      | S p' => decimate3 p' tl
      end
  end.

Definition Decimator : Converter :=
  {| src_state := nat; full := decimate3 |}.

(** A converter without history: every call starts at phase 0 (the shape of
    the library's one-shot [simple] API). *)
Definition OneShot : Converter :=
  {| src_state := unit; full := fun _ xs => (tt, snd (decimate3 0 xs)) |}.

(* ===================================================================== *)
(** ** Downsample + Frame                                                 *)
(* ===================================================================== *)

#[local] Obligation Tactic := idtac.

(** The frame extraction loop of [processGeminiAudioChunk]:
    [while (audioBuffer8k.length >= 160) { frame = slice(0,160);
       audioBuffer8k = slice(160); audioFrames.push(Buffer.from(...)) }].
    Every turn takes 160 samples off the accumulator, so the loop ends. *)
Equations? extractFrames (audioBuffer8k : list Z) (audioFrames : list Buffer)
  : list Z * list Buffer by wf (length audioBuffer8k) lt :=
  extractFrames buf frames with le_lt_dec 160 (length buf) := {
    | left _ :=
        extractFrames (skipn 160 buf)
                      (frames ++ [Buffer_from_Int16Array (firstn 160 buf)]);
    | right _ := (buf, frames) }.
Proof. rewrite length_skipn. lia. Qed.

Section Pipeline.

Variable down : Converter.

(** [processGeminiAudioChunk]: the converter state is the process-wide
    [globalDownsampler], the accumulator is the connection's
    [audioBuffer8k]; the result is the function's local [audioFrames]. *)
Definition processGeminiAudioChunk
    (globalDownsampler : src_state down) (audioBuffer8k : list Z)
    (inputBuffer : Buffer) : src_state down * list Z * list Buffer :=
  let inputSamples := Int16Array_view inputBuffer in
  let '(globalDownsampler', downsampledSamples) :=
    full down globalDownsampler inputSamples in
  let audioBuffer8k := audioBuffer8k ++ downsampledSamples in
  let '(audioBuffer8k', audioFrames) := extractFrames audioBuffer8k [] in
  (globalDownsampler', audioBuffer8k', audioFrames).

(** [feed] runs the pipeline over the audio parts of a model turn, in
    arrival order, as the [for] loop over [parts] does, and collects the
    frames it sends. *)
Fixpoint feed (g : src_state down) (acc : list Z) (chunks : list Buffer)
    : src_state down * list Z * list Buffer :=
  match chunks with
  | [] => (g, acc, [])
  | c :: cs =>
      let '(g1, acc1, fr) := processGeminiAudioChunk g acc c in
      let '(g2, acc2, frs) := feed g1 acc1 cs in
      (g2, acc2, fr ++ frs)
  end.

(** The samples the converter delivers for a sequence of chunks. *)
Fixpoint convert_all (g : src_state down) (chunks : list Buffer) : list Z :=
  match chunks with
  | [] => []
  | c :: cs =>
      let '(g1, out) := full down g (Int16Array_view c) in
      out ++ convert_all g1 cs
  end.

(** Two connections [A] and [B] on the one process-wide converter: each has
    its own accumulator (a closure variable of its
    [handleClientConnection]); [interleave] runs their chunks in the given
    arrival order and keeps each connection's accumulator and the frames
    sent to its client. *)
Fixpoint interleave (g : src_state down)
    (a b : list Z * list Buffer) (trace : list (bool * Buffer))
    : src_state down * (list Z * list Buffer) * (list Z * list Buffer) :=
  match trace with
  | [] => (g, a, b)
  | (true, c) :: rest =>
      let '(g1, acc1, fr) := processGeminiAudioChunk g (fst a) c in
      interleave g1 (acc1, snd a ++ fr) b rest
  | (false, c) :: rest =>
      let '(g1, acc1, fr) := processGeminiAudioChunk g (fst b) c in
      interleave g1 a (acc1, snd b ++ fr) rest
  end.

(** The chunks of one connection, in order. *)
Definition chunks_of (who : bool) (trace : list (bool * Buffer))
    : list Buffer :=
  map snd (filter (fun e => Bool.eqb (fst e) who) trace).

End Pipeline.

(** The [i]-th block of 160 samples of a stream, as a frame. *)
Definition frame_at (stream : list Z) (i : nat) : Buffer :=
  Buffer_from_Int16Array (firstn 160 (skipn (160 * i) stream)).


(* ===================================================================== *)
(** ** Exceptions                                                         *)
(* ===================================================================== *)

(** The outcome of a JS call: a value, or a thrown error (its message). *)
Inductive Result (A : Type) : Type :=
| Return (a : A)
| Throw (e : string).
Arguments Return {A} a.
Arguments Throw {A} e.

Definition Result_bind {A B} (r : Result A) (k : A -> Result B) : Result B :=
  match r with
  | Return a => k a
  | Throw e => Throw e
  end.

(* ===================================================================== *)
(** ** loadTools.js: the tool dispatcher                                  *)
(* ===================================================================== *)

(** One transcript line. *)
Record Entry := {
  speaker : string;
  entry_text : string;
  timestamp : string
}.

(** The process-wide [transcripts] map: session uuid -> entries. *)
Definition Transcripts := string -> option (list Entry).

Definition Map_set (m : Transcripts) (k : string) (v : list Entry)
  : Transcripts :=
  fun k' => if String.eqb k' k then Some v else m k'.

Definition Map_delete (m : Transcripts) (k : string) : Transcripts :=
  fun k' => if String.eqb k' k then None else m k'.

(** [transcripts.get(uuid).push(entry)], guarded by [transcripts.has(uuid)];
    a [null] uuid is never a key. *)
Definition transcript_push (m : Transcripts) (uuid : option string)
    (e : Entry) : Transcripts :=
  match uuid with
  | Some k =>
      match m k with
      | Some es => Map_set m k (es ++ [e])
      | None => m
      end
  | None => m
  end.

Definition dquote : string := String (ascii_of_nat 34) EmptyString.

Section Bridge.

(** The arguments object of a function call; the dispatcher only passes it
    on. *)
Variable Args : Type.

(** A tool's [handler(sessionUuid, args, context)]: it resolves to a result
    text or rejects. *)
Definition Handler : Type :=
  option string -> Args -> Transcripts -> Result string.

(** A tool module: what [require(path)] yields. *)
Record Tool := {
  tool_name : string;
  handler : Handler
}.

(** The application directory: the module found at each path, if there is a
    file. Paths are relative to [__dirname]. *)
Definition FileSystem : Type := string -> option Tool.

Definition existsSync (fs : FileSystem) (p : string) : bool :=
  match fs p with Some _ => true | None => false end.

Definition require (fs : FileSystem) (p : string) : Result Tool :=
  match fs p with
  | Some t => Return t
  | None => Throw ("Cannot find module " ++ p)
  end.

Definition path_join (dir file : string) : string := dir ++ "/" ++ file.

(** [getToolHandler(name)]: throws when neither directory has the file;
    otherwise returns the wrapper closure. The result is an [option] only
    because the caller tests it for truthiness: a closure is always
    [Some]. *)
Definition getToolHandler (fs : FileSystem) (name : string)
  : Result (option Handler) :=
  let possiblePaths :=
    [ path_join "avr_tools" (name ++ ".js");
      path_join "tools" (name ++ ".js") ] in
  match find (existsSync fs) possiblePaths with
  | None =>
      Throw ("Tool " ++ dquote ++ name ++ dquote ++
             " not found in any available directory")
  | Some toolPath =>
      Result_bind (require fs toolPath) (fun tool =>
      Return (Some (fun sessionUuid args context =>
                      handler tool sessionUuid args context)))
  end.

Record FunctionCall := {
  fc_id : string;
  fc_name : string;
  fc_args : Args
}.

Record FunctionResponse := {
  fr_id : string;
  fr_name : string;
  fr_result : string
}.

Definition fallback_text : string :=
  "I'm sorry, I cannot retrieve the requested information.".

(** The [for (const fc of functionCalls)] loop of the tool-call branch of
    [onmessage]; [functionResponses] is the array built so far. *)
Fixpoint tool_loop (fs : FileSystem) (sessionUuid : option string)
    (transcripts : Transcripts) (functionCalls : list FunctionCall)
    (functionResponses : list FunctionResponse)
  : Result (list FunctionResponse) :=
  match functionCalls with
  | [] => Return functionResponses
  | fc :: rest =>
      Result_bind (getToolHandler fs (fc_name fc)) (fun handler =>
      match handler with
      | None =>
          let obj := {| fr_id := fc_id fc; fr_name := fc_name fc;
                        fr_result := fallback_text |} in
          tool_loop fs sessionUuid transcripts rest (functionResponses ++ [obj])
      | Some h =>
          Result_bind (h sessionUuid (fc_args fc) transcripts) (fun result =>
          let obj := {| fr_id := fc_id fc; fr_name := fc_name fc;
                        fr_result := result |} in
          tool_loop fs sessionUuid transcripts rest (functionResponses ++ [obj]))
      end)
  end.

(* ===================================================================== *)
(** ** index.js: one client connection and its upstream session           *)
(* ===================================================================== *)

Variable down up : Converter.
Variable fs : FileSystem.

(** Messages to the client. *)
Inductive ClientMessage :=
| audio (frame : Buffer)
| error (message : string)
| interruption.

(** What a handler does to the outside, in order. *)
Inductive Effect :=
| clientWs_send (m : ClientMessage)
| clientWs_close
| session_sendRealtimeInput_audio (data : Buffer)
| session_sendRealtimeInput_text (text : string)
| session_sendToolResponse (functionResponses : list FunctionResponse)
| session_close
| fs_writeFile (path content : string).

(** The handle [ai.live.connect] resolves to. *)
Inductive Session := LiveSession.

(** Process-wide state: the two converters and the transcripts map. *)
Record Global := {
  globalDownsampler : src_state down;
  globalUpsampler : src_state up;
  transcripts : Transcripts
}.

(** The closure variables of one [handleClientConnection]. *)
Record Conn := {
  sessionUuid : option string;
  audioBuffer8k : list Z;
  session : option Session;
  audioFrames : list Buffer
}.

Definition State : Type := Global * Conn.

(** [handleClientConnection]'s initial closure. *)
Definition handleClientConnection : Conn :=
  {| sessionUuid := None; audioBuffer8k := []; session := None;
     audioFrames := [] |}.

(** A handler run: it updates the state, performs effects and ends normally
    or with an uncaught exception; what it did before throwing stays
    done. *)
Definition M (A : Type) : Type := State -> State * list Effect * Result A.

Definition ret {A} (a : A) : M A := fun st => (st, [], Return a).

Definition bind {A B} (m : M A) (k : A -> M B) : M B :=
  fun st =>
    match m st with
    | (st1, out1, Return a) =>
        let '(st2, out2, r) := k a st1 in (st2, out1 ++ out2, r)
    | (st1, out1, Throw e) => (st1, out1, Throw e)
    end.

Definition emit (e : Effect) : M unit := fun st => (st, [e], Return tt).
Definition get : M State := fun st => (st, [], Return st).
Definition put (st : State) : M unit := fun _ => (st, [], Return tt).
Definition lift {A} (r : Result A) : M A := fun st => (st, [], r).

(** [try { m } catch (error) { h }]. *)
Definition try_catch (m : M unit) (h : M unit) : M unit :=
  fun st =>
    match m st with
    | (st1, out1, Return tt) => (st1, out1, Return tt)
    | (st1, out1, Throw _) =>
        let '(st2, out2, r) := h st1 in (st2, out1 ++ out2, r)
    end.

Notation "x <- m ;; k" := (bind m (fun x => k))
  (at level 61, m at next level, right associativity).
Notation "m ;;; k" := (bind m (fun _ => k))
  (at level 61, right associativity).

Fixpoint forEach {A} (l : list A) (f : A -> M unit) : M unit :=
  match l with
  | [] => ret tt
  | x :: tl => f x ;;; forEach tl f
  end.

Definition set_transcripts (t : Transcripts) : M unit :=
  st <- get ;;
  put ({| globalDownsampler := globalDownsampler (fst st);
          globalUpsampler := globalUpsampler (fst st);
          transcripts := t |}, snd st).

Definition set_conn (c : Conn) : M unit :=
  st <- get ;; put (fst st, c).

(** JS truthiness of an optional string field. *)
Definition truthy (s : option string) : option string :=
  match s with
  | Some EmptyString => None
  | other => other
  end.

(** [processGeminiAudioChunk] on the state of this connection. *)
Definition processGeminiAudioChunk_M (inputBuffer : Buffer)
  : M (list Buffer) :=
  st <- get ;;
  let '(g, c) := st in
  let '(d', acc', frames) :=
    processGeminiAudioChunk down (globalDownsampler g) (audioBuffer8k c)
                            inputBuffer in
  put ({| globalDownsampler := d';
          globalUpsampler := globalUpsampler g;
          transcripts := transcripts g |},
       {| sessionUuid := sessionUuid c; audioBuffer8k := acc';
          session := session c; audioFrames := audioFrames c |}) ;;;
  ret frames.

(** [convert8kTo16k]. *)
Definition convert8kTo16k (inputBuffer : Buffer) : M Buffer :=
  st <- get ;;
  let '(g, c) := st in
  let '(u', upsampledSamples) :=
    full up (globalUpsampler g) (Int16Array_view inputBuffer) in
  put ({| globalDownsampler := globalDownsampler g;
          globalUpsampler := u';
          transcripts := transcripts g |}, c) ;;;
  ret (Buffer_from_Int16Array upsampledSamples).

(** A call on [session]: a [TypeError] while it is still [null]. *)
Definition on_session (e : Effect) : M unit :=
  st <- get ;;
  match session (snd st) with
  | Some _ => emit e
  | None => lift (Throw "TypeError: Cannot read properties of null")
  end.

(** Upstream messages, as far as [onmessage] looks at them. *)
Record Part := {
  inlineData : option Buffer;
  part_text : option string
}.

Record LiveServerMessage := {
  setupComplete : bool;
  text : option string;
  modelTurn_parts : option (list Part);
  toolCall_functionCalls : option (list FunctionCall);
  interrupted : bool
}.

(** The body of the [for] loop over the parts of a model turn. *)
Definition handle_part (now : string) (part : Part) : M unit :=
  match inlineData part with
  | Some audioChunk =>
      frames <- processGeminiAudioChunk_M audioChunk ;;
      st <- get ;;
      let c := snd st in
      set_conn {| sessionUuid := sessionUuid c;
                  audioBuffer8k := audioBuffer8k c;
                  session := session c; audioFrames := frames |} ;;;
      forEach frames (fun frame => emit (clientWs_send (audio frame)))
  | None => ret tt
  end ;;;
  match truthy (part_text part) with
  | Some t =>
      st <- get ;;
      set_transcripts
        (transcript_push (transcripts (fst st)) (sessionUuid (snd st))
           {| speaker := "AI"; entry_text := t; timestamp := now |})
  | None => ret tt
  end.

(** The [if (message.text)] block of [onmessage]: the recognised user
    speech goes to the transcript. *)
Definition user_text (now : string) (message : LiveServerMessage) : M unit :=
  match truthy (text message) with
  | Some t =>
      st <- get ;;
      set_transcripts
        (transcript_push (transcripts (fst st)) (sessionUuid (snd st))
           {| speaker := "User"; entry_text := t; timestamp := now |})
  | None => ret tt
  end.

(** The [onmessage] callback; [now] is the clock reading. *)
Definition onmessage (now : string) (message : LiveServerMessage) : M unit :=
  if setupComplete message then ret tt
  else
    user_text now message ;;;
    match modelTurn_parts message with
    | Some parts => forEach parts (handle_part now)
    | None =>
        match toolCall_functionCalls message with
        | Some functionCalls =>
            st <- get ;;
            functionResponses <-
              lift (tool_loop fs (sessionUuid (snd st))
                      (transcripts (fst st)) functionCalls []) ;;
            on_session (session_sendToolResponse functionResponses)
        | None =>
            if interrupted message then
              st <- get ;;
              let c := snd st in
              set_conn {| sessionUuid := sessionUuid c;
                          audioBuffer8k := audioBuffer8k c;
                          session := session c; audioFrames := [] |} ;;;
              emit (clientWs_send interruption)
            else ret tt
        end
    end.

(** [onerror] and [onclose] of the upstream session. *)
Definition onerror (e_message : string) : M unit :=
  emit (clientWs_send (error e_message)).

Definition onclose : M unit := emit clientWs_close.

(** [initializeGeminiConnection]; [connect] is how the awaited
    [connectToGeminiSdk] settles. *)
Definition initializeGeminiConnection (connect : Result Session) : M unit :=
  try_catch
    (s <- lift connect ;;
     st <- get ;;
     let c := snd st in
     set_conn {| sessionUuid := sessionUuid c;
                 audioBuffer8k := audioBuffer8k c;
                 session := Some s; audioFrames := audioFrames c |} ;;;
     on_session (session_sendRealtimeInput_text
                   "Please start the conversation."))
    (emit (clientWs_send (error "Failed to initialize Gemini connection"))).

(** Messages from the client, after [JSON.parse] and the [switch]. *)
Inductive ClientIn :=
| init (uuid : string)
| audio_in (audio : option Buffer)
| other_type.

(** The client [message] handler, up to the point where it starts
    [initializeGeminiConnection] (which runs on its own). *)
Definition on_client_message (message : ClientIn) : M unit :=
  match message with
  | init uuid =>
      st <- get ;;
      let c := snd st in
      set_conn {| sessionUuid := Some uuid;
                  audioBuffer8k := audioBuffer8k c;
                  session := session c; audioFrames := audioFrames c |} ;;;
      set_transcripts (Map_set (transcripts (fst st)) uuid [])
  | audio_in a =>
      st <- get ;;
      match a, session (snd st) with
      | Some audioBuffer, Some _ =>
          upsampledAudio <- convert8kTo16k audioBuffer ;;
          emit (session_sendRealtimeInput_audio upsampledAudio)
      | _, _ => ret tt
      end
  | other_type => ret tt
  end.

Definition format_entry (e : Entry) : string :=
  "[" ++ timestamp e ++ "] " ++ speaker e ++ ": " ++ entry_text e.

Definition newline : string := String (ascii_of_nat 10) EmptyString.

(** [cleanup], run when the client socket closes or fails. The transcript
    is saved under [if (sessionUuid && transcripts.has(sessionUuid))]: an
    empty uuid is falsy, like [null]. *)
Definition cleanup : M unit :=
  st <- get ;;
  match session (snd st) with
  | Some _ => emit session_close
  | None => ret tt
  end ;;;
  emit clientWs_close ;;;
  match truthy (sessionUuid (snd st)) with
  | Some uuid =>
      match transcripts (fst st) uuid with
      | Some finalTranscript =>
          emit (fs_writeFile ("logs/transcript-" ++ uuid ++ ".txt")
                  (String.concat newline (map format_entry finalTranscript))) ;;;
          set_transcripts (Map_delete (transcripts (fst st)) uuid)
      | None => ret tt
      end
  | None => ret tt
  end.

(** What can happen to one connection. *)
Inductive Event :=
| ClientMessage_ev (m : ClientIn)
| ConnectSettled (r : Result Session)
| UpstreamMessage (now : string) (m : LiveServerMessage)
| UpstreamError (e_message : string)
| UpstreamClose
| ClientGone.

Definition handle (ev : Event) : M unit :=
  match ev with
  | ClientMessage_ev m => on_client_message m
  | ConnectSettled r => initializeGeminiConnection r
  | UpstreamMessage now m => onmessage now m
  | UpstreamError e => onerror e
  | UpstreamClose => onclose
  | ClientGone => cleanup
  end.

(** A run of events: each handler starts from the state the previous one
    left, whether it ended normally or not; the effects are collected in
    order, with the exceptions that were left uncaught. *)
Fixpoint run (evs : list Event) (st : State)
  : State * list Effect * list string :=
  match evs with
  | [] => (st, [], [])
  | ev :: rest =>
      let '(st1, out1, r) := handle ev st in
      let '(st2, out2, errs) := run rest st1 in
      (st2, out1 ++ out2,
       match r with Return _ => errs | Throw e => e :: errs end)
  end.

End Bridge.

(* ===================================================================== *)
(** ** utils/google_calendar_helper.js: the timestamps sent to the API    *)
(* ===================================================================== *)

Module Calendar.

(** [Number(s)] on decimal digit strings (leading zeros allowed, the empty
    string is 0); [None] stands for every other input, where JS yields
    [NaN] or reads another notation. *)
Definition Number (s : string) : option Z :=
  option_map Z.of_uint (NilEmpty.uint_of_string s).

(** [n.toString()] of an integer. *)
Definition toString (z : Z) : string := NilZero.string_of_int (Z.to_int z).

(** [s.padStart(2, '0')]. *)
Definition padStart2 (s : string) : string :=
  match String.length s with
  | O => "00"
  | S O => "0" ++ s
  | _ => s
  end.

(** [s.split(sep)] for a one-character separator. *)
Fixpoint split (sep : ascii) (s : string) : list string :=
  match s with
  | EmptyString => [EmptyString]
  | String c tl =>
      if Ascii.eqb c sep then EmptyString :: split sep tl
      else match split sep tl with
           | hd :: rest => String c hd :: rest
           | [] => [String c EmptyString]
           end
  end.

(** Element [i] of [s.split(sep).map(Number)]; [None] when it is missing or
    not a number. *)
Definition field (sep : ascii) (s : string) (i : nat) : option Z :=
  match nth_error (split sep s) i with
  | Some x => Number x
  | None => None
  end.

Definition timeZone : string := "Europe/Amsterdam".

(** The body of the free/busy query. *)
Record FreebusyRequest := {
  timeMin : string;
  timeMax : string;
  fb_timeZone : string;
  items : list string
}.

(** The event inserted by a booking. *)
Record CalendarEvent := {
  summary : string;
  description : string;
  start_dateTime : string;
  start_timeZone : string;
  end_dateTime : string;
  end_timeZone : string;
  attendees : list string
}.

(** [checkAvailability], from the parsing of its arguments to the request
    body it sends; [calendarId] is the primary calendar the API reported. *)
Definition checkAvailability (date time : string)
    (duration_minutes : Z) (calendarId : string) : option FreebusyRequest :=
  match field "-" date 0, field "-" date 1, field "-" date 2,
        field ":" time 0, field ":" time 1 with
  | Some year, Some month, Some day, Some hour, Some minute =>
      let utcHour := hour - 1 in
      let startUtc :=
        (toString year ++ "-" ++ padStart2 (toString month) ++ "-" ++
         padStart2 (toString day) ++ "T" ++ padStart2 (toString utcHour) ++
         ":" ++ padStart2 (toString minute) ++ ":00Z")%string in
      let endMinute := minute + duration_minutes in
      let endHour := hour + endMinute / 60 in
      let endMin := Z.rem endMinute 60 in
      let utcEndHour := endHour - 1 in
      let endUtc :=
        (toString year ++ "-" ++ padStart2 (toString month) ++ "-" ++
         padStart2 (toString day) ++ "T" ++ padStart2 (toString utcEndHour) ++
         ":" ++ padStart2 (toString endMin) ++ ":00Z")%string in
      Some {| timeMin := startUtc; timeMax := endUtc;
              fb_timeZone := timeZone; items := [calendarId] |}
  | _, _, _, _, _ => None
  end.

(** [bookAppointment], from the parsing of its arguments to the event it
    inserts. *)
Definition bookAppointment (client_name client_email date time : string)
    (duration_minutes : Z) (purpose : string) : option CalendarEvent :=
  match field "-" date 0, field "-" date 1, field "-" date 2,
        field ":" time 0, field ":" time 1 with
  | Some year, Some month, Some day, Some hour, Some minute =>
      let utcHour := hour - 1 in
      let startUtc :=
        (toString year ++ "-" ++ padStart2 (toString month) ++ "-" ++
         padStart2 (toString day) ++ "T" ++ padStart2 (toString utcHour) ++
         ":" ++ padStart2 (toString minute) ++ ":00Z")%string in
      let endMinute := minute + duration_minutes in
      let endHour := hour + endMinute / 60 in
      let endMin := Z.rem endMinute 60 in
      let utcEndHour := endHour - 1 in
      let endUtc :=
        (toString year ++ "-" ++ padStart2 (toString month) ++ "-" ++
         padStart2 (toString day) ++ "T" ++ padStart2 (toString utcEndHour) ++
         ":" ++ padStart2 (toString endMin) ++ ":00Z")%string in
      Some {| summary := purpose;
              description := "Appointment with " ++ client_name ++ ".";
              start_dateTime := startUtc; start_timeZone := timeZone;
              end_dateTime := endUtc; end_timeZone := timeZone;
              attendees := [client_email] |}
  | _, _, _, _, _ => None
  end.

(** *** Reading a timestamp back *)

(** What follows the first ["T"] of a timestamp. *)
Fixpoint after_T (s : string) : option string :=
  match s with
  | EmptyString => None
  | String c tl => if Ascii.eqb c "T" then Some tl else after_T tl
  end.

(** What precedes the first [":"]. *)
Fixpoint before_colon (s : string) : string :=
  match s with
  | EmptyString => EmptyString
  | String c tl =>
      if Ascii.eqb c ":" then EmptyString else String c (before_colon tl)
  end.

(** The hour field of a timestamp: between the first ["T"] and the next
    [":"]. *)
Definition hour_field (s : string) : option string :=
  option_map before_colon (after_T s).

Definition is_digit (c : ascii) : bool :=
  let n := nat_of_ascii c in (48 <=? n)%nat && (n <=? 57)%nat.

Definition digit_val (c : ascii) : nat := (nat_of_ascii c - 48)%nat.

(** An ISO 8601 time of day as the calendar API reads it: [hh:mm:ssZ], two
    digits each, hour at most 23, minute and second at most 59. *)
Definition iso8601_time_wf (t : string) : bool :=
  match t with
  | String h1 (String h2 (String c1 (String m1 (String m2
      (String c2 (String s1 (String s2 (String z EmptyString)))))))) =>
      is_digit h1 && is_digit h2 && Ascii.eqb c1 ":" &&
      is_digit m1 && is_digit m2 && Ascii.eqb c2 ":" &&
      is_digit s1 && is_digit s2 && Ascii.eqb z "Z" &&
      (10 * digit_val h1 + digit_val h2 <=? 23)%nat &&
      (10 * digit_val m1 + digit_val m2 <=? 59)%nat &&
      (10 * digit_val s1 + digit_val s2 <=? 59)%nat
  | _ => false
  end.

(** A timestamp is well formed when it has a ["T"] and a well-formed time of
    day after it (the date part is not constrained here). *)
Definition iso8601_wf (s : string) : bool :=
  match after_T s with
  | Some t => iso8601_time_wf t
  | None => false
  end.

(** Strings made of decimal digits and minus signs only: what [toString]
    and [padStart2] produce. *)
Fixpoint plain (s : string) : bool :=
  match s with
  | EmptyString => true
  | String c tl => (is_digit c || Ascii.eqb c "-") && plain tl
  end.

End Calendar.

(* ===================================================================== *)
(** ** Contracts a converter may or may not meet, and fixtures            *)
(* ===================================================================== *)

(** A streaming converter: converting a chunk in two pieces gives the same
    samples, and leaves the same history, as converting it whole. *)
Definition streaming (c : Converter) : Prop :=
  forall g xs ys,
    full c g (xs ++ ys) =
    (fst (full c (fst (full c g xs)) ys),
     snd (full c g xs) ++ snd (full c (fst (full c g xs)) ys)).

(** A converter without inter-call history: what it delivers for a chunk
    does not depend on what it was fed before. *)
Definition history_free (c : Converter) : Prop :=
  forall g g' xs, snd (full c g xs) = snd (full c g' xs).

(** A streaming 24 kHz -> 8 kHz converter with start-up latency: it keeps
    every third sample, like [decimate3], but holds the last 19 samples it
    has computed back until more input has arrived, as a filter that needs
    the samples ahead does. The state is the phase and the samples held. *)
Definition Lagging : Converter :=
  {| src_state := nat * list Z;
     full := fun st xs =>
       let all := snd st ++ snd (decimate3 (fst st) xs) in
       let n := (length all - 19)%nat in
       ((fst (decimate3 (fst st) xs), skipn n all), firstn n all) |}.

(** An 8 kHz -> 16 kHz converter that repeats every sample. *)
Definition Doubler : Converter :=
  {| src_state := unit;
     full := fun _ xs => (tt, flat_map (fun x => [x; x]) xs) |}.

(** The PCM16 buffer holding the samples [from], [from + 1], ... ([n] of
    them). *)
Definition ramp (from : Z) (n : nat) : Buffer :=
  Buffer_from_Int16Array (map (fun k => from + Z.of_nat k) (seq 0 n)).


Arguments fc_id {Args} f.
Arguments fc_name {Args} f.
Arguments fc_args {Args} f.
Arguments tool_name {Args} t.
Arguments handler {Args} t _ _ _.
Arguments setupComplete {Args} l.
Arguments text {Args} l.
Arguments modelTurn_parts {Args} l.
Arguments toolCall_functionCalls {Args} l.
Arguments interrupted {Args} l.
Arguments globalDownsampler {down up} g.
Arguments globalUpsampler {down up} g.
Arguments transcripts {down up} g _.
Arguments UpstreamMessage {Args} now m.
Arguments ClientMessage_ev {Args} m.
Arguments ConnectSettled {Args} r.
Arguments UpstreamError {Args} e_message.
Arguments UpstreamClose {Args}.
Arguments ClientGone {Args}.

(** *** Fixtures: a small deployment and a few upstream messages *)

(** A tools directory with two modules: [get_time], whose handler answers,
    and [crash], whose handler throws. *)
Definition fs_demo : FileSystem unit :=
  fun p =>
    if String.eqb p "tools/get_time.js" then
      Some {| tool_name := "get_time";
              handler := fun _ _ _ => Return "It is noon."%string |}
    else if String.eqb p "tools/crash.js" then
      Some {| tool_name := "crash";
              handler := fun _ _ _ => Throw "boom"%string |}
    else None.

Definition call (id name : string) : FunctionCall unit :=
  {| fc_id := id; fc_name := name; fc_args := tt |}.

Definition audio_message {Args} (b : Buffer) : LiveServerMessage Args :=
  {| setupComplete := false; text := None;
     modelTurn_parts := Some [{| inlineData := Some b; part_text := None |}];
     toolCall_functionCalls := None; interrupted := false |}.

Definition interruption_message {Args} : LiveServerMessage Args :=
  {| setupComplete := false; text := None; modelTurn_parts := None;
     toolCall_functionCalls := None; interrupted := true |}.

Definition toolCall_message {Args} (fcs : list (FunctionCall Args))
  : LiveServerMessage Args :=
  {| setupComplete := false; text := None; modelTurn_parts := None;
     toolCall_functionCalls := Some fcs; interrupted := false |}.

(** The process right after start-up. *)
Definition global0 : Global Decimator Doubler :=
  Build_Global Decimator Doubler 0%nat tt (fun _ => None).

(** A connection whose session [abc] is open. *)
Definition active0 : State Decimator Doubler :=
  (Build_Global Decimator Doubler 0%nat tt (Map_set (fun _ => None) "abc" []),
   {| sessionUuid := Some "abc"%string; audioBuffer8k := [];
      session := Some LiveSession; audioFrames := [] |}).

(** One connection running alone on the converter: its accumulator and the
    frames sent to its client. *)
Definition solo (down : Converter) (g : src_state down)
    (s : list Z * list Buffer) (chunks : list Buffer)
  : list Z * list Buffer :=
  (snd (fst (feed down g (fst s) chunks)),
   snd s ++ snd (feed down g (fst s) chunks)).

(** An effect that, if it is an [audio] message to the client, carries
    exactly one frame of 320 bytes. *)
Definition one_frame (e : Effect) : Prop :=
  match e with
  | clientWs_send (audio frame) => length frame = 320%nat
  | _ => True
  end.

(** A property of every effect of a handler run, from any state. *)
Definition sends {down up : Converter} (P : Effect -> Prop) {A}
    (m : M down up A) : Prop :=
  forall st, Forall P (snd (fst (m st))).


(* ===================================================================== *)
(** ** tools/get_transcript.js                                            *)
(* ===================================================================== *)

(** The [handler] of the [get_transcript] tool: it reads the session's
    entries from [context.transcripts]. *)
Definition get_transcript_handler {Args : Type} : Handler Args :=
  fun sessionUuid _ transcripts =>
    match sessionUuid with
    | Some uuid =>
        match transcripts uuid with
        | Some [] => Return "The transcript is currently empty."%string
        | Some transcript =>
            Return ("Here is the transcript of our conversation:" ++ newline ++
                    String.concat newline (map format_entry transcript))%string
        | None =>
            Return "I'm sorry, I couldn't retrieve the transcript for this session."%string
        end
    | None =>
        Return "I'm sorry, I couldn't retrieve the transcript for this session."%string
    end.

Definition get_transcript {Args : Type} : Tool Args :=
  {| tool_name := "get_transcript"; handler := get_transcript_handler |}.

(* ===================================================================== *)
(** ** loadTools.js: the tool catalogue                                   *)
(* ===================================================================== *)

Section Catalogue.

(** A JSON schema; [empty_object] is [{}]. *)
Variable Schema : Type.
Variable empty_object : Schema.

(** What a tool module exports, as far as [loadTools] reads it. *)
Record ToolExports := {
  exp_name : string;
  exp_description : option string;
  exp_input_schema : option Schema
}.

(** One entry of the catalogue handed to the upstream session. *)
Record FunctionDeclaration := {
  decl_name : string;
  decl_description : string;
  decl_parameters : Schema
}.

(** The application directory as [loadTools] sees it: the listing of each
    directory ([None] when it does not exist) and what [require] does with
    each path. *)
Record Disk := {
  readdirSync : string -> option (list string);
  load : string -> Result ToolExports
}.

(** One step of the [map] in [loadToolsFromDir]: the declaration, or [null]
    when [require] throws. *)
Definition declaration_of (d : Disk) (dirPath file : string)
  : option FunctionDeclaration :=
  match load d (path_join dirPath file) with
  | Return tool =>
      Some {| decl_name := exp_name tool;
              decl_description :=
                match exp_description tool with
                | Some s => s
                | None => EmptyString
                end;
              decl_parameters :=
                match exp_input_schema tool with
                | Some s => s
                | None => empty_object
                end |}
  | Throw _ => None
  end.

(** [.filter(tool => tool !== null)] after the [map]. *)
Fixpoint drop_null {A} (l : list (option A)) : list A :=
  match l with
  | [] => []
  | Some x :: tl => x :: drop_null tl
  | None :: tl => drop_null tl
  end.

Definition loadToolsFromDir (d : Disk) (dirPath : string)
  : list FunctionDeclaration :=
  match readdirSync d dirPath with
  | None => []
  | Some files => drop_null (map (declaration_of d dirPath) files)
  end.

Definition loadTools (d : Disk) : list FunctionDeclaration :=
  loadToolsFromDir d "avr_tools" ++ loadToolsFromDir d "tools".

End Catalogue.

Arguments exp_name {Schema} t.
Arguments exp_description {Schema} t.
Arguments exp_input_schema {Schema} t.
Arguments decl_name {Schema} f.
Arguments decl_description {Schema} f.
Arguments decl_parameters {Schema} f.
Arguments readdirSync {Schema} d _.
Arguments load {Schema} d _.

(* ===================================================================== *)
(** ** index.js: the configuration of the upstream session               *)
(* ===================================================================== *)

(** The environment variables [connectToGeminiSdk] reads. *)
Record ProcessEnv := {
  GEMINI_MODEL : option string;
  GEMINI_INSTRUCTIONS : option string;
  GEMINI_URL_INSTRUCTIONS : option string;
  GEMINI_FILE_INSTRUCTIONS : option string;
  GEMINI_API_KEY : option string
}.

(** What [connectToGeminiSdk] passes to [ai.live.connect]; a
    [systemInstruction] of [None] is [undefined]. *)
Record ConnectRequest (Decl : Type) := {
  model : string;
  systemInstruction : option string;
  config_tools : option (list Decl);
  apiKey : string
}.
Arguments model {Decl} c.
Arguments systemInstruction {Decl} c.
Arguments config_tools {Decl} c.
Arguments apiKey {Decl} c.

(** [connectToGeminiSdk] up to the call of [ai.live.connect]: [axios_get]
    is the outcome of fetching a URL (the [system] field of the answer,
    when it has one), [readFile] that of reading a file, [tools] that of
    [loadTools()]. *)
Definition connectToGeminiSdk {Decl : Type} (env : ProcessEnv)
    (axios_get : string -> Result (option string))
    (readFile : string -> Result string)
    (tools : Result (list Decl)) : ConnectRequest Decl :=
  let model :=
    match truthy (GEMINI_MODEL env) with
    | Some m => m
    | None => "gemini-live-2.5-flash-preview-native-audio-12-2025"%string
    end in
  let initial := Some "You are a helpful assistant."%string in
  let systemInstruction :=
    match truthy (GEMINI_INSTRUCTIONS env) with
    | Some instructions => Some instructions
    | None =>
        match truthy (GEMINI_URL_INSTRUCTIONS env) with
        | Some url =>
            match axios_get url with
            | Return data_system => data_system
            | Throw _ => initial
            end
        | None =>
            match truthy (GEMINI_FILE_INSTRUCTIONS env) with
            | Some file =>
                match readFile file with
                | Return data => Some data
                | Throw _ => initial
                end
            | None =>
                Some "You are a helpful assistant and answer in a friendly tone."%string
            end
        end
    end in
  {| model := model;
     systemInstruction := systemInstruction;
     config_tools :=
       match tools with
       | Return l => Some l
       | Throw _ => None
       end;
     apiKey :=
       match truthy (GEMINI_API_KEY env) with
       | Some k => k
       | None => EmptyString
       end |}.

(* ===================================================================== *)
(** ** index.js: the archive of audio chunks                              *)
(* ===================================================================== *)

Module Archive.

(** Calls on the file system, in order. *)
Inductive FsCall :=
| fs_mkdir (dir : string)
| fs_open (path : string)
| fh_write (file : string) (chunk : Buffer)
| fh_close (file : string).

(** The process-wide [audioFileHandles] map: handle key -> the file the
    handle was opened on. *)
Definition Handles := string -> option string.

Definition Handles_set (m : Handles) (k : string) (v : string) : Handles :=
  fun k' => if String.eqb k' k then Some v else m k'.

Definition Handles_delete (m : Handles) (k : string) : Handles :=
  fun k' => if String.eqb k' k then None else m k'.

Definition handleKey (sessionUuid type : string) : string :=
  (sessionUuid ++ "-" ++ type)%string.

(** [saveAudioChunk] is an [async] function that nobody awaits: a call
    runs up to its first [await] and is then suspended; it goes on each
    time the I/O it waits for settles, and other calls may run in
    between. A suspended call is the rest of its body. *)
Inductive Pending :=
| AwaitMkdir (filePath handleKey : string) (chunkBuffer : Buffer)
| AwaitOpen (filePath handleKey : string) (chunkBuffer : Buffer)
| AwaitWrite.

Section Calls.

(** Node's [path.join] (it also normalises the path). *)
Variable join : list string -> string.

(** The directory and the file of a chunk of the given day. *)
Definition dir_of (audioSaveDir botName today sessionUuid : string)
  : string :=
  join [audioSaveDir; today; botName; sessionUuid].

Definition file_of (audioSaveDir botName today type sessionUuid : string)
  : string :=
  join [dir_of audioSaveDir botName today sessionUuid;
        (type ++ "_audio.pcm")%string].

(** [saveAudioChunk(type, sessionUuid, chunkBuffer)] up to
    [await fs.mkdir(..)]; [audioSaveDir] and [botName] are the
    environment's values (or their defaults), [today] is the date at the
    time of the call. *)
Definition saveAudioChunk (audioSaveDir botName today : string)
    (type sessionUuid : string) (chunkBuffer : Buffer)
  : list FsCall * Pending :=
  let sessionDir := dir_of audioSaveDir botName today sessionUuid in
  let filePath := file_of audioSaveDir botName today type sessionUuid in
  ([fs_mkdir sessionDir],
   AwaitMkdir filePath (handleKey sessionUuid type) chunkBuffer).

(** A suspended call goes on when what it waits for settles ([rejection] is
    the error, if any: the call then ends): after [mkdir] it reads the
    handle map and either opens the file or writes; after [open] it stores
    the handle and writes; after [write] it ends. [None] is a call that
    has ended. *)
Definition resume (p : Pending) (rejection : option string)
    (audioFileHandles : Handles) : Handles * list FsCall * option Pending :=
  match rejection with
  | Some _ => (audioFileHandles, [], None)
  | None =>
      match p with
      | AwaitMkdir filePath handleKey chunkBuffer =>
          match audioFileHandles handleKey with
          | Some fileHandle =>
              (audioFileHandles, [fh_write fileHandle chunkBuffer],
               Some AwaitWrite)
          | None =>
              (audioFileHandles, [fs_open filePath],
               Some (AwaitOpen filePath handleKey chunkBuffer))
          end
      | AwaitOpen filePath handleKey chunkBuffer =>
          (Handles_set audioFileHandles handleKey filePath,
           [fh_write filePath chunkBuffer], Some AwaitWrite)
      | AwaitWrite => (audioFileHandles, [], None)
      end
  end.

(** What happens to the archive: a call of [saveAudioChunk] starts, or the
    I/O that the [i]-th call started so far waits for settles. *)
Inductive ArchiveEvent :=
| Call (today type sessionUuid : string) (chunkBuffer : Buffer)
| Settle (i : nat) (rejection : option string).

Fixpoint replace_nth {A} (l : list A) (i : nat) (x : A) : list A :=
  match l, i with
  | [], _ => []
  | _ :: tl, O => x :: tl
  | y :: tl, S j => y :: replace_nth tl j x
  end.

(** The handle map and the calls started so far, each suspended or
    ended. *)
Definition Archive : Type := Handles * list (option Pending).

Definition archive_step (audioSaveDir botName : string) (ev : ArchiveEvent)
    (st : Archive) : Archive * list FsCall :=
  match ev with
  | Call today type sessionUuid chunkBuffer =>
      let '(out, p) :=
        saveAudioChunk audioSaveDir botName today type sessionUuid
                       chunkBuffer in
      ((fst st, snd st ++ [Some p]), out)
  | Settle i rejection =>
      match nth_error (snd st) i with
      | Some (Some p) =>
          let '(handles, out, p') := resume p rejection (fst st) in
          ((handles, replace_nth (snd st) i p'), out)
      | _ => (st, [])
      end
  end.

Fixpoint archive_run (audioSaveDir botName : string)
    (evs : list ArchiveEvent) (st : Archive) : Archive * list FsCall :=
  match evs with
  | [] => (st, [])
  | ev :: rest =>
      let '(st1, out1) := archive_step audioSaveDir botName ev st in
      let '(st2, out2) := archive_run audioSaveDir botName rest st1 in
      (st2, out1 ++ out2)
  end.

End Calls.

(** A call of the stream [k] that does not wait for an [open]. *)
Definition no_open_pending (k : string) (c : option Pending) : Prop :=
  match c with
  | Some (AwaitMkdir _ k' _) => k' = k
  | Some (AwaitOpen _ _ _) => False
  | _ => True
  end.

(** An event of the stream [k]. *)
Definition of_stream (k : string) (ev : ArchiveEvent) : Prop :=
  match ev with
  | Call _ type sessionUuid _ => handleKey sessionUuid type = k
  | Settle _ _ => True
  end.

(** A stand-in for [path.join]: the parts separated by slashes. *)
Definition slashes (parts : list string) : string :=
  String.concat "/" parts.

(** The part of [cleanup] that closes the session's two audio handles
    (closing succeeds). *)
Definition close_handles (sessionUuid : string) (audioFileHandles : Handles)
  : Handles * list FsCall :=
  let handleUserKey := handleKey sessionUuid "user" in
  let '(h1, out1) :=
    match audioFileHandles handleUserKey with
    | Some fh => (Handles_delete audioFileHandles handleUserKey, [fh_close fh])
    | None => (audioFileHandles, [])
    end in
  let handleAiKey := handleKey sessionUuid "ai" in
  let '(h2, out2) :=
    match h1 handleAiKey with
    | Some fh => (Handles_delete h1 handleAiKey, [fh_close fh])
    | None => (h1, [])
    end in
  (h2, out1 ++ out2).

(** The files a sequence of calls opened, and the chunks it wrote with the
    file each went to. *)
Definition opened (out : list FsCall) : list string :=
  flat_map (fun c => match c with fs_open p => [p] | _ => [] end) out.

Definition written (out : list FsCall) : list (string * Buffer) :=
  flat_map (fun c => match c with fh_write f b => [(f, b)] | _ => [] end) out.

(** The last character of a string. *)
Fixpoint last_ascii (s : string) : option ascii :=
  match s with
  | EmptyString => None
  | String c EmptyString => Some c
  | String _ tl => last_ascii tl
  end.

End Archive.

(* ===================================================================== *)
(** ** utils/google_calendar_helper.js: the replies                       *)
(* ===================================================================== *)

Module CalendarReply.
Import Calendar.

Record CalendarListEntry := {
  entry_id : string;
  primary : bool
}.

(** The calendar service as the two functions use it: whether
    [getAuthorizedClient] yields a client, how [calendarList.list] settles,
    what the free/busy query answers for the queried calendar (its [busy]
    periods, or nothing when the answer has no such calendar), and the
    [htmlLink] of an inserted event. *)
Record CalendarService := {
  getAuthorizedClient : bool;
  calendarList_list : Result (list CalendarListEntry);
  freebusy_query : FreebusyRequest -> Result (option (list (string * string)));
  events_insert : string -> CalendarEvent -> Result string
}.

Definition not_authorized : string :=
  "Google Calendar is not authorized. Please authorize the application first.".

Definition slot_text (date time : string) (duration_minutes : Z) : string :=
  ("The time slot from " ++ date ++ " " ++ time ++
   " (Europe/Amsterdam) for " ++ toString duration_minutes ++
   " minutes is ")%string.

(** [checkAvailability] as a whole: the text it resolves to, or the
    exception it rejects with. [None] stands for arguments whose fields are
    not decimal numbers. *)
Definition checkAvailability_reply (svc : CalendarService) (date time : string)
    (duration_minutes : Z) : option (Result string) :=
  if negb (getAuthorizedClient svc) then Some (Return not_authorized)
  else
    match checkAvailability date time duration_minutes EmptyString with
    | None => None
    | Some _ =>
        match calendarList_list svc with
        | Throw e => Some (Throw e)
        | Return calendar_items =>
            match find primary calendar_items with
            | None => Some (Return "No primary calendar found."%string)
            | Some primaryCalendar =>
                let calendarId := entry_id primaryCalendar in
                match checkAvailability date time duration_minutes
                                        calendarId with
                | None => None
                | Some requestBody =>
                    match freebusy_query svc requestBody with
                    | Return (Some (_ :: _)) =>
                        Some (Return (slot_text date time duration_minutes ++
                                      "NOT available.")%string)
                    | Return _ =>
                        Some (Return (slot_text date time duration_minutes ++
                                      "available.")%string)
                    | Throw e_message =>
                        Some (Return ("Error checking calendar availability: "
                                      ++ e_message)%string)
                    end
                end
            end
        end
    end.

(** [bookAppointment] as a whole. *)
Definition bookAppointment_reply (svc : CalendarService)
    (client_name client_email date time : string) (duration_minutes : Z)
    (purpose : string) : option (Result string) :=
  if negb (getAuthorizedClient svc) then Some (Return not_authorized)
  else
    match bookAppointment client_name client_email date time
                          duration_minutes purpose with
    | None => None
    | Some event =>
        match calendarList_list svc with
        | Throw e => Some (Throw e)
        | Return calendar_items =>
            match find primary calendar_items with
            | None => Some (Return "No primary calendar found."%string)
            | Some primaryCalendar =>
                match events_insert svc (entry_id primaryCalendar) event with
                | Return htmlLink =>
                    Some (Return ("Appointment successfully booked for " ++
                                  client_name ++ " from " ++ date ++ " " ++
                                  time ++ " (Europe/Amsterdam) for " ++
                                  toString duration_minutes ++
                                  " minutes. Event URL: " ++ htmlLink)%string)
                | Throw e_message =>
                    Some (Return ("Error booking appointment: " ++
                                  e_message)%string)
                end
            end
        end
    end.

End CalendarReply.

(* ===================================================================== *)
(** ** Predicates on effects and states used in the statements below      *)
(* ===================================================================== *)

(** An [audio] message to the client. *)
Definition is_client_audio (e : Effect) : Prop :=
  match e with
  | clientWs_send (audio _) => True
  | _ => False
  end.

(** Anything but a message to the client or the closing of its socket. *)
Definition not_to_client (e : Effect) : Prop :=
  match e with
  | clientWs_send _ | clientWs_close => False
  | _ => True
  end.

(** Anything but a transcript file. *)
Definition not_a_file (e : Effect) : Prop :=
  match e with
  | fs_writeFile _ _ => False
  | _ => True
  end.

(** Anything but a call on the upstream session. *)
Definition not_to_session (e : Effect) : Prop :=
  match e with
  | session_sendRealtimeInput_audio _ | session_sendRealtimeInput_text _
  | session_sendToolResponse _ | session_close => False
  | _ => True
  end.

(** A message to the client or a batch of tool responses: what [onmessage]
    may answer with. *)
Definition is_reply (e : Effect) : Prop :=
  match e with
  | clientWs_send _ | session_sendToolResponse _ => True
  | _ => False
  end.

(** A message that carries a model turn, a tool call and the interruption
    flag at once. *)
Definition mixed_message : LiveServerMessage unit :=
  {| setupComplete := false; text := None;
     modelTurn_parts :=
       Some [{| inlineData := Some (ramp 1 600); part_text := None |}];
     toolCall_functionCalls := Some [call "1" "get_time"];
     interrupted := true |}.

(** What a message adds to the transcript: the recognised user text, then
    the text of each part of the model turn, in order. *)
Definition spoken {Args} (now : string) (m : LiveServerMessage Args)
  : list Entry :=
  match truthy (text m) with
  | Some t => [{| speaker := "User"; entry_text := t; timestamp := now |}]
  | None => []
  end ++
  match modelTurn_parts m with
  | Some parts =>
      flat_map (fun part =>
                  match truthy (part_text part) with
                  | Some t =>
                      [{| speaker := "AI"; entry_text := t;
                          timestamp := now |}]
                  | None => []
                  end) parts
  | None => []
  end.

(** A tools directory that holds the transcript tool. *)
Definition fs_transcript : FileSystem unit :=
  fun p =>
    if String.eqb p "tools/get_transcript.js" then Some get_transcript
    else None.

(** A connection whose session [abc] is open and has one entry in its
    transcript. *)
Definition talking0 : State Decimator Doubler :=
  (Build_Global Decimator Doubler 0%nat tt
     (Map_set (fun _ => None) "abc"
        [{| speaker := "User"; entry_text := "hello"; timestamp := "t0" |}]),
   {| sessionUuid := Some "abc"%string; audioBuffer8k := [];
      session := Some LiveSession; audioFrames := [] |}).

(** A message with recognised user text and a model turn of two parts,
    the second with text. *)
Definition spoken_message : LiveServerMessage unit :=
  {| setupComplete := false; text := Some "hi"%string;
     modelTurn_parts :=
       Some [{| inlineData := Some (ramp 1 30); part_text := None |};
             {| inlineData := None; part_text := Some "Hello!"%string |}];
     toolCall_functionCalls := None; interrupted := false |}.

(** A message with recognised user text and a call of the transcript
    tool. *)
Definition ask_transcript : LiveServerMessage unit :=
  {| setupComplete := false; text := Some "read it back"%string;
     modelTurn_parts := None;
     toolCall_functionCalls := Some [call "7" "get_transcript"];
     interrupted := false |}.

(** A tools directory with a module that loads, one that does not, and one
    that exports another name than its file's. *)
Definition disk_demo : Disk unit :=
  {| readdirSync := fun dir =>
       if String.eqb dir "tools"
       then Some ["get_time.js"; "broken.js"; "alias.js"]%string
       else None;
     load := fun p =>
       if String.eqb p "tools/get_time.js" then
         Return {| exp_name := "get_time"; exp_description := Some "Tells the time."%string;
                   exp_input_schema := None |}
       else if String.eqb p "tools/alias.js" then
         Return {| exp_name := "nickname"; exp_description := None;
                   exp_input_schema := Some tt |}
       else Throw "SyntaxError"%string |}.

(** A tools directory whose modules are named after their tools, as
    [fs_demo] has them. *)
Definition disk_named : Disk unit :=
  {| readdirSync := fun dir =>
       if String.eqb dir "tools"
       then Some ["get_time.js"; "crash.js"]%string
       else None;
     load := fun p =>
       if String.eqb p "tools/get_time.js" then
         Return {| exp_name := "get_time"; exp_description := None;
                   exp_input_schema := None |}
       else if String.eqb p "tools/crash.js" then
         Return {| exp_name := "crash"; exp_description := None;
                   exp_input_schema := None |}
       else Throw "Cannot find module"%string |}.

(** A buffer of bytes proper. *)
Definition bytes (b : Buffer) : Prop := Forall (fun x => 0 <= x < 256) b.

(** The identity converter: what comes in goes out. *)
Definition PassThrough : Converter :=
  {| src_state := unit; full := fun _ xs => (tt, xs) |}.

(* ===================================================================== *)
(** ** Facts about buffers and the extraction loop                        *)
(* ===================================================================== *)

Lemma Buffer_from_Int16Array_length frame :
  length (Buffer_from_Int16Array frame) = (2 * length frame)%nat.
Proof.
  unfold Buffer_from_Int16Array.
  induction frame as [|x tl IH]; simpl; [reflexivity | lia].
Qed.

Lemma Buffer_from_Int16Array_app xs ys :
  Buffer_from_Int16Array (xs ++ ys) =
  Buffer_from_Int16Array xs ++ Buffer_from_Int16Array ys.
Proof. apply flat_map_app. Qed.

Lemma ToInt16_range z : -32768 <= ToInt16 z < 32768.
Proof.
  unfold ToInt16.
  pose proof (Z.mod_pos_bound z 65536 ltac:(lia)).
  destruct (32768 <=? z mod 65536) eqn:E;
    [apply Z.leb_le in E | apply Z.leb_gt in E]; lia.
Qed.

Lemma int16_bytes_range z : Forall (fun b => 0 <= b < 256) (int16_bytes z).
Proof.
  unfold int16_bytes.
  pose proof (Z.mod_pos_bound (ToInt16 z) 65536 ltac:(lia)) as Hw.
  set (w := ToInt16 z mod 65536) in *.
  repeat constructor.
  - apply Z.mod_pos_bound; lia.
  - apply Z.mod_pos_bound; lia.
  - apply Z.div_pos; lia.
  - apply Z.div_lt_upper_bound; lia.
Qed.

Lemma Int16Array_view_app b1 b2 :
  Nat.even (length b1) = true ->
  Int16Array_view (b1 ++ b2) = Int16Array_view b1 ++ Int16Array_view b2.
Proof.
  revert b1. fix IH 1. intros [|lo [|hi tl]] Hev.
  - reflexivity.
  - discriminate.
  - simpl. f_equal. apply IH. exact Hev.
Qed.

Lemma Int16Array_view_length b :
  length (Int16Array_view b) = Nat.div2 (length b).
Proof.
  revert b. fix IH 1. intros [|lo [|hi tl]]; try reflexivity.
  simpl. f_equal. apply IH.
Qed.

(** Unfolding of the loop, once in each direction of the test. *)
Lemma extractFrames_ge buf frames :
  (160 <= length buf)%nat ->
  extractFrames buf frames =
  extractFrames (skipn 160 buf)
                (frames ++ [Buffer_from_Int16Array (firstn 160 buf)]).
Proof.
  intros Hge. rewrite extractFrames_equation_1.
  destruct (le_lt_dec 160 (length buf)); [reflexivity | lia].
Qed.

Lemma extractFrames_lt buf frames :
  (length buf < 160)%nat -> extractFrames buf frames = (buf, frames).
Proof.
  intros Hlt. rewrite extractFrames_equation_1.
  destruct (le_lt_dec 160 (length buf)); [lia | reflexivity].
Qed.

Lemma frame_at_skipn stream i :
  frame_at stream (S i) = frame_at (skipn 160 stream) i.
Proof.
  unfold frame_at. rewrite skipn_skipn.
  replace (160 * S i)%nat with (160 * i + 160)%nat by lia. reflexivity.
Qed.

(** Closed form of the loop: it cuts [length buf / 160] frames off the front
    of the accumulator, block by block, and leaves the rest. *)
Lemma extractFrames_spec buf frames :
  extractFrames buf frames =
  (skipn (160 * (length buf / 160)) buf,
   frames ++ map (frame_at buf) (seq 0 (length buf / 160))).
Proof.
  remember (length buf / 160)%nat as k eqn:Hk.
  revert buf frames Hk.
  induction k as [|k IH]; intros buf frames Hk.
  - assert (length buf < 160)%nat as Hlt.
    { apply Nat.div_small_iff; [lia | congruence]. }
    rewrite extractFrames_lt by exact Hlt.
    rewrite Nat.mul_0_r, app_nil_r. reflexivity.
  - assert (160 <= length buf)%nat as Hge.
    { destruct (Nat.lt_ge_cases (length buf) 160) as [H|H]; [|exact H].
      rewrite Nat.div_small in Hk by exact H. discriminate. }
    assert (k = length (skipn 160 buf) / 160)%nat as Hk'.
    { rewrite length_skipn.
      replace (length buf) with ((length buf - 160) + 1 * 160)%nat in Hk
        by lia.
      rewrite Nat.div_add in Hk by lia. lia. }
    rewrite extractFrames_ge by exact Hge.
    rewrite (IH _ _ Hk'). f_equal.
    + rewrite skipn_skipn. f_equal. lia.
    + rewrite <- app_assoc. f_equal.
      change (seq 0 (S k)) with (0%nat :: seq 1 k).
      rewrite <- seq_shift. cbn [map app]. rewrite map_map.
      f_equal.
      apply map_ext. intros i. symmetry. apply frame_at_skipn.
Qed.

Lemma extractFrames_snd_app buf frames :
  snd (extractFrames buf frames) = frames ++ snd (extractFrames buf []).
Proof. rewrite !extractFrames_spec. reflexivity. Qed.

Lemma extractFrames_fst_irrel buf frames :
  fst (extractFrames buf frames) = fst (extractFrames buf []).
Proof. rewrite !extractFrames_spec. reflexivity. Qed.

(** The loop run on an accumulator followed by more samples is the loop run
    on the accumulator, then on what it left followed by those samples. *)
Lemma extractFrames_app buf more frames :
  extractFrames (buf ++ more) frames =
  extractFrames (fst (extractFrames buf frames) ++ more)
                (snd (extractFrames buf frames)).
Proof.
  remember (length buf) as n eqn:Hn. revert buf frames Hn.
  induction n as [n IH] using lt_wf_ind. intros buf frames Hn.
  destruct (le_lt_dec 160 (length buf)) as [Hge|Hlt].
  - rewrite (extractFrames_ge buf) by exact Hge.
    rewrite (extractFrames_ge (buf ++ more)) by (rewrite length_app; lia).
    rewrite skipn_app, firstn_app.
    replace (160 - length buf)%nat with 0%nat by lia.
    rewrite firstn_O, skipn_O, app_nil_r.
    apply (IH (length (skipn 160 buf))); [|reflexivity].
    rewrite length_skipn. lia.
  - rewrite (extractFrames_lt buf) by exact Hlt. reflexivity.
Qed.

Lemma frame_at_length stream i :
  (160 * S i <= length stream)%nat -> length (frame_at stream i) = 320%nat.
Proof.
  intros H. unfold frame_at.
  rewrite Buffer_from_Int16Array_length, length_firstn, length_skipn. lia.
Qed.

Lemma extractFrames_frames_320 buf :
  Forall (fun f => length f = 320%nat) (snd (extractFrames buf [])).
Proof.
  rewrite extractFrames_spec. cbn [snd app].
  apply Forall_forall. intros f Hin.
  apply in_map_iff in Hin as [i [<- Hi]]. apply in_seq in Hi.
  apply frame_at_length.
  pose proof (Nat.Div0.mul_div_le (length buf) 160). lia.
Qed.

Lemma extractFrames_rest_short buf frames :
  (length (fst (extractFrames buf frames)) < 160)%nat.
Proof.
  rewrite extractFrames_spec. cbn [fst]. rewrite length_skipn.
  pose proof (Nat.div_mod_eq (length buf) 160).
  pose proof (Nat.mod_upper_bound (length buf) 160). lia.
Qed.

Lemma extractFrames_count buf :
  length (snd (extractFrames buf [])) = (length buf / 160)%nat.
Proof.
  rewrite extractFrames_spec. cbn [snd app].
  rewrite length_map, length_seq. reflexivity.
Qed.

Lemma processGeminiAudioChunk_eq down g acc b :
  processGeminiAudioChunk down g acc b =
  (fst (full down g (Int16Array_view b)),
   fst (extractFrames (acc ++ snd (full down g (Int16Array_view b))) []),
   snd (extractFrames (acc ++ snd (full down g (Int16Array_view b))) [])).
Proof.
  unfold processGeminiAudioChunk.
  destruct (full down g (Int16Array_view b)) as [g1 out]. cbn [fst snd].
  destruct (extractFrames (acc ++ out) []) as [rest frames]. reflexivity.
Qed.

(** Feeding chunks one after the other is the extraction loop run once on
    the accumulator followed by everything the converter delivered. *)
Lemma feed_extractFrames down chunks : forall g acc,
  (length acc < 160)%nat ->
  snd (fst (feed down g acc chunks)) =
    fst (extractFrames (acc ++ convert_all down g chunks) []) /\
  snd (feed down g acc chunks) =
    snd (extractFrames (acc ++ convert_all down g chunks) []).
Proof.
  induction chunks as [|c cs IH]; intros g acc Hacc.
  - cbn [feed convert_all fst snd]. rewrite app_nil_r.
    rewrite extractFrames_lt by exact Hacc. split; reflexivity.
  - cbn [feed convert_all].
    rewrite processGeminiAudioChunk_eq.
    destruct (full down g (Int16Array_view c)) as [g1 out]. cbn [fst snd].
    specialize (IH g1 (fst (extractFrames (acc ++ out) []))
                  (extractFrames_rest_short _ _)).
    destruct (feed down g1 (fst (extractFrames (acc ++ out) [])) cs)
      as [[g2 acc2] frs]. cbn [fst snd] in *.
    destruct IH as [IHa IHf].
    rewrite app_assoc, extractFrames_app.
    rewrite (extractFrames_fst_irrel (fst _ ++ _) (snd _)).
    rewrite (extractFrames_snd_app (fst _ ++ _) (snd _)).
    split; congruence.
Qed.

Lemma decimate3_app xs : forall p ys,
  decimate3 p (xs ++ ys) =
  (fst (decimate3 (fst (decimate3 p xs)) ys),
   snd (decimate3 p xs) ++ snd (decimate3 (fst (decimate3 p xs)) ys)).
Proof.
  induction xs as [|x tl IH]; intros p ys.
  - cbn. destruct (decimate3 p ys); reflexivity.
  - destruct p as [|p'].
    + cbn [app decimate3]. rewrite (IH 2%nat ys).
      destruct (decimate3 2 tl) as [p1 o1]. cbn [fst snd].
      destruct (decimate3 p1 ys) as [p2 o2]. reflexivity.
    + cbn [app decimate3]. apply IH.
Qed.

Lemma Decimator_streaming : streaming Decimator.
Proof. intros g xs ys. apply decimate3_app. Qed.

Lemma OneShot_history_free : history_free OneShot.
Proof. intros [] [] xs. reflexivity. Qed.

(* ===================================================================== *)
(** ** What a handler sends                                               *)
(* ===================================================================== *)

Section EffectFacts.

Variable Args : Type.
Variables down up : Converter.
Variable fs : FileSystem Args.

Lemma sends_ret P {A} (a : A) : sends P (ret down up a).
Proof. intros st. constructor. Qed.

Lemma sends_get P : sends P (get down up).
Proof. intros st. constructor. Qed.

Lemma sends_put P s : sends P (put down up s).
Proof. intros st. constructor. Qed.

Lemma sends_lift P {A} (r : Result A) : sends P (lift down up r).
Proof. intros st. constructor. Qed.

Lemma sends_emit (P : Effect -> Prop) e : P e -> sends P (emit down up e).
Proof. intros H st. repeat constructor. exact H. Qed.

Lemma sends_bind P {A B} (m : M down up A) (k : A -> M down up B) :
  sends P m -> (forall a, sends P (k a)) -> sends P (bind down up m k).
Proof.
  intros Hm Hk st. unfold bind.
  specialize (Hm st). destruct (m st) as [[st1 out1] [a|e]].
  - specialize (Hk a st1). destruct (k a st1) as [[st2 out2] r].
    cbn [fst snd] in *. apply Forall_app. split; assumption.
  - exact Hm.
Qed.

Lemma sends_forEach P {A} (l : list A) (f : A -> M down up unit) :
  (forall x, sends P (f x)) -> sends P (forEach down up l f).
Proof.
  intros Hf. induction l as [|x tl IH]; cbn [forEach].
  - apply sends_ret.
  - apply sends_bind; [apply Hf | intros _; exact IH].
Qed.

End EffectFacts.

Section FrameFacts.

Variable Args : Type.
Variables down up : Converter.
Variable fs : FileSystem Args.

Lemma processGeminiAudioChunk_M_frames inputBuffer st :
  Forall (fun frame => length frame = 320%nat)
         match snd (processGeminiAudioChunk_M down up inputBuffer st) with
         | Return frames => frames
         | Throw _ => []
         end /\
  snd (fst (processGeminiAudioChunk_M down up inputBuffer st)) = [].
Proof.
  unfold processGeminiAudioChunk_M. destruct st as [g c].
  unfold bind, get. cbn [fst snd].
  rewrite processGeminiAudioChunk_eq. cbn.
  split; [apply extractFrames_frames_320 | reflexivity].
Qed.

Lemma handle_part_one_frame now part :
  sends one_frame (handle_part down up now part).
Proof.
  unfold handle_part. apply sends_bind.
  - destruct (inlineData part) as [audioChunk|]; [|apply sends_ret].
    intros st. unfold bind at 1.
    destruct (processGeminiAudioChunk_M_frames audioChunk st) as [Hfr Hout].
    destruct (processGeminiAudioChunk_M down up audioChunk st)
      as [[st1 out1] [frames|e]]; cbn [fst snd] in *; subst out1.
    + assert (sends one_frame
                (bind down up (get down up) (fun st0 =>
                 bind down up
                   (set_conn down up
                      {| sessionUuid := sessionUuid (snd st0);
                         audioBuffer8k := audioBuffer8k (snd st0);
                         session := session (snd st0);
                         audioFrames := frames |})
                   (fun _ => forEach down up frames (fun frame =>
                      emit down up (clientWs_send (audio frame))))))) as Hs.
      { apply sends_bind; [apply sends_get|]. intros st0.
        apply sends_bind.
        - unfold set_conn. apply sends_bind; [apply sends_get|].
          intros ?. apply sends_put.
        - intros _. clear - Hfr.
          induction frames as [|f tl IH]; cbn [forEach].
          + apply sends_ret.
          + inversion Hfr; subst. apply sends_bind.
            * apply sends_emit. assumption.
            * intros _. apply IH. assumption. }
      specialize (Hs st1).
      destruct (bind down up (get down up) _ st1) as [[st2 out2] r].
      exact Hs.
    + constructor.
  - intros _. destruct (truthy (part_text part)); [|apply sends_ret].
    apply sends_bind; [apply sends_get|]. intros st0.
    unfold set_transcripts. apply sends_bind; [apply sends_get|].
    intros ?. apply sends_put.
Qed.

(** Every [audio] message [onmessage] sends to the client carries a frame
    of exactly 320 bytes, whatever the message and the state. *)
Lemma onmessage_one_frame now (m : LiveServerMessage Args) :
  sends one_frame (onmessage Args down up fs now m).
Proof.
  unfold onmessage. destruct (setupComplete m); [apply sends_ret|].
  apply sends_bind.
  - unfold user_text. destruct (truthy (text m)); [|apply sends_ret].
    apply sends_bind; [apply sends_get|]. intros st0.
    unfold set_transcripts. apply sends_bind; [apply sends_get|].
    intros ?. apply sends_put.
  - intros _. destruct (modelTurn_parts m) as [parts|].
    + apply sends_forEach. intros part. apply handle_part_one_frame.
    + destruct (toolCall_functionCalls m) as [fcs|].
      * apply sends_bind; [apply sends_get|]. intros st0.
        apply sends_bind; [apply sends_lift|]. intros rs.
        unfold on_session. apply sends_bind; [apply sends_get|].
        intros st1. destruct (session (snd st1)).
        -- apply sends_emit. exact I.
        -- apply sends_lift.
      * destruct (interrupted m); [|apply sends_ret].
        apply sends_bind; [apply sends_get|]. intros st0.
        apply sends_bind.
        -- unfold set_conn. apply sends_bind; [apply sends_get|].
           intros ?. apply sends_put.
        -- intros _. apply sends_emit. exact I.
Qed.

End FrameFacts.

(* ===================================================================== *)
(** ** The framing claims                                                 *)
(* ===================================================================== *)

Lemma processGeminiAudioChunk_frames down g acc inputBuffer :
  let stream := acc ++ snd (full down g (Int16Array_view inputBuffer)) in
  let r := processGeminiAudioChunk down g acc inputBuffer in
  Forall (fun frame => length frame = 320%nat) (snd r) /\
  (length (snd (fst r)) < 160)%nat /\
  snd (fst r) = skipn (160 * length (snd r)) stream.
Proof.
  cbv zeta. rewrite processGeminiAudioChunk_eq. cbn [fst snd].
  split; [apply extractFrames_frames_320|].
  split; [apply extractFrames_rest_short|].
  rewrite extractFrames_count, extractFrames_spec. reflexivity.
Qed.

(** X22. When the accumulator and the new samples make up a frame, the
    first frame returned starts with the samples the accumulator held. *)
Lemma first_frame_starts_with_accumulator down g acc inputBuffer :
  (length acc <= 160)%nat ->
  (160 <= length (acc ++ snd (full down g (Int16Array_view inputBuffer))))%nat ->
  exists frame rest,
    snd (processGeminiAudioChunk down g acc inputBuffer) = frame :: rest /\
    firstn (2 * length acc) frame = Buffer_from_Int16Array acc.
Proof.
  intros Hacc Hlen. rewrite processGeminiAudioChunk_eq. cbn [fst snd].
  set (out := snd (full down g (Int16Array_view inputBuffer))) in *.
  rewrite extractFrames_spec. cbn [snd app].
  destruct (length (acc ++ out) / 160)%nat as [|k] eqn:Hk.
  - apply Nat.div_small_iff in Hk; lia.
  - exists (frame_at (acc ++ out) 0), (map (frame_at (acc ++ out)) (seq 1 k)).
    split; [reflexivity|].
    unfold frame_at. rewrite Nat.mul_0_r, skipn_O, firstn_app.
    rewrite (firstn_all2 acc) by exact Hacc.
    rewrite Buffer_from_Int16Array_app.
    rewrite <- (Buffer_from_Int16Array_length acc), firstn_app, Nat.sub_diag.
    rewrite firstn_all, firstn_O, app_nil_r. reflexivity.
Qed.

(** C7. Whatever the converter, its history, the accumulator and the input
    buffer, every frame [processGeminiAudioChunk] returns has exactly 320
    bytes; what stays in the accumulator is shorter than one frame (fewer
    than 160 samples) and is exactly the part of the sample stream that
    follows the emitted frames. Accordingly every [audio] message
    [onmessage] sends to the client carries exactly 320 bytes. *)
Theorem C7_frames_have_320_bytes Args down up fs :
  (forall g acc inputBuffer,
     let stream := acc ++ snd (full down g (Int16Array_view inputBuffer)) in
     let r := processGeminiAudioChunk down g acc inputBuffer in
     Forall (fun frame => length frame = 320%nat) (snd r) /\
     (length (snd (fst r)) < 160)%nat /\
     snd (fst r) = skipn (160 * length (snd r)) stream) /\
  (forall now m st,
     Forall one_frame (snd (fst (onmessage Args down up fs now m st)))).
Proof.
  split.
  - intros g acc inputBuffer. apply processGeminiAudioChunk_frames.
  - intros now m st. apply onmessage_one_frame.
Qed.

(** A buffer cut inside a sample is another matter: the first piece loses
    its odd byte and the second is read from the middle of a sample. *)
Example odd_split_misaligns :
  snd (fst (feed Decimator 0%nat [] [[1; 0; 2; 0; 3; 0]])) = [1] /\
  snd (fst (feed Decimator 0%nat [] [[1]; [0; 2; 0; 3; 0]])) = [512].
Proof. split; reflexivity. Qed.

(** C8, as the code has it. From an empty accumulator, an audio part of
    1200 bytes is 600 samples; how many samples come back is up to the
    converter: for [k] delivered samples, [k / 160] frames of 320 bytes are
    returned and [k mod 160] samples stay in the accumulator. When the
    converter delivers 200 samples (exactly one for three), that is one
    frame and 40 samples left. *)
Theorem C8_frames_follow_converter_output down g inputBuffer :
  length inputBuffer = 1200%nat ->
  let k := length (snd (full down g (Int16Array_view inputBuffer))) in
  let r := processGeminiAudioChunk down g [] inputBuffer in
  length (Int16Array_view inputBuffer) = 600%nat /\
  length (snd r) = (k / 160)%nat /\
  Forall (fun frame => length frame = 320%nat) (snd r) /\
  length (snd (fst r)) = (k mod 160)%nat /\
  (k = 200%nat ->
   (exists frame, snd r = [frame] /\ length frame = 320%nat) /\
   length (snd (fst r)) = 40%nat).
Proof.
  intros Hin. cbv zeta. rewrite processGeminiAudioChunk_eq.
  cbn [fst snd app].
  set (out := snd (full down g (Int16Array_view inputBuffer))).
  split; [rewrite Int16Array_view_length, Hin; reflexivity|].
  split; [apply extractFrames_count|].
  split; [apply extractFrames_frames_320|].
  split.
  - rewrite extractFrames_spec. cbn [fst]. rewrite length_skipn.
    pose proof (Nat.div_mod_eq (length out) 160). lia.
  - intros Hout.
    assert (length out / 160 = 1)%nat as Hk by (rewrite Hout; reflexivity).
    rewrite extractFrames_spec, Hk. cbn [fst snd app seq map]. split.
    + exists (frame_at out 0). split; [reflexivity|].
      apply frame_at_length. lia.
    + rewrite length_skipn. lia.
Qed.

Lemma C8_frames_follow_converter_output_witness :
  length (ramp 1 600) = 1200%nat /\
  let k := length (snd (full Decimator 0%nat (Int16Array_view (ramp 1 600)))) in
  let r := processGeminiAudioChunk Decimator 0%nat [] (ramp 1 600) in
  length (Int16Array_view (ramp 1 600)) = 600%nat /\
  length (snd r) = (k / 160)%nat /\
  Forall (fun frame => length frame = 320%nat) (snd r) /\
  length (snd (fst r)) = (k mod 160)%nat /\
  (k = 200%nat ->
   (exists frame, snd r = [frame] /\ length frame = 320%nat) /\
   length (snd (fst r)) = 40%nat).
Proof.
  assert (length (ramp 1 600) = 1200%nat) as H by (vm_compute; reflexivity).
  split; [exact H|].
  exact (C8_frames_follow_converter_output Decimator 0%nat (ramp 1 600) H).
Defined.

(** With a converter that has start-up latency the 600 samples of the first
    part do not come back as 200: [Lagging] delivers 181 of them, so one
    frame is returned and 21 samples, not 40, stay in the accumulator. *)
Lemma C8_lagging_converter_counterexample :
  let out := snd (full Lagging (0%nat, []) (Int16Array_view (ramp 1 600))) in
  let r := processGeminiAudioChunk Lagging (0%nat, []) [] (ramp 1 600) in
  length (ramp 1 600) = 1200%nat /\
  length out = 181%nat /\
  length (snd r) = 1%nat /\
  length (snd (fst r)) = 21%nat /\
  ~ (length out = 200%nat /\ length (snd (fst r)) = 40%nat).
Proof.
  cbv zeta.
  split; [vm_compute; reflexivity|].
  split; [vm_compute; reflexivity|].
  split; [vm_compute; reflexivity|].
  split; [vm_compute; reflexivity|].
  intros [H _]. vm_compute in H. discriminate H.
Qed.

(** C9. For every sequence of chunks fed one after the other (the
    accumulator holding less than a frame, as it always does between
    calls), the frames come out in stream order: the [i]-th frame sent is
    the encoding of samples [160 i .. 160 i + 159] of the accumulator
    followed by all samples the converter delivered, in the order they were
    appended; what is left in the accumulator is the tail of that stream. *)
Theorem C9_frames_in_stream_order down g acc chunks :
  (length acc < 160)%nat ->
  let stream := acc ++ convert_all down g chunks in
  let r := feed down g acc chunks in
  snd r = map (frame_at stream) (seq 0 (length stream / 160)) /\
  snd (fst r) = skipn (160 * (length stream / 160)) stream /\
  concat (snd r) =
    Buffer_from_Int16Array (firstn (160 * (length stream / 160)) stream).
Proof.
  intros Hacc. cbv zeta.
  destruct (feed_extractFrames down chunks g acc Hacc) as [Ha Hf].
  rewrite Ha, Hf, extractFrames_spec. cbn [fst snd app].
  repeat split.
  set (stream := acc ++ convert_all down g chunks).
  generalize (length stream / 160)%nat as k. clear.
  induction k as [|k IH].
  - reflexivity.
  - rewrite seq_S, map_app, concat_app, IH. cbn [map concat plus].
    rewrite app_nil_r. unfold frame_at.
    rewrite <- Buffer_from_Int16Array_app. f_equal.
    replace (160 * S k)%nat with (160 * k + 160)%nat by lia.
    rewrite <- (firstn_skipn (160 * k) (firstn (160 * k + 160) stream)).
    rewrite firstn_firstn, Nat.min_l by lia. f_equal.
    rewrite skipn_firstn_comm. f_equal. lia.
Qed.

Lemma C9_frames_in_stream_order_witness :
  (length (@nil Z) < 160)%nat /\
  let chunks := [ramp 1 300; ramp 301 300; ramp 601 900] in
  let stream := [] ++ convert_all Decimator 0%nat chunks in
  let r := feed Decimator 0%nat [] chunks in
  snd r = map (frame_at stream) (seq 0 (length stream / 160)) /\
  snd (fst r) = skipn (160 * (length stream / 160)) stream /\
  concat (snd r) =
    Buffer_from_Int16Array (firstn (160 * (length stream / 160)) stream).
Proof.
  split; [cbn; lia|].
  apply (C9_frames_in_stream_order Decimator 0%nat []
           [ramp 1 300; ramp 301 300; ramp 601 900]).
  cbn; lia.
Defined.

(** C4. With a streaming converter, feeding a buffer in two pieces cut
    between two samples gives exactly the frames (same bytes, same order),
    the accumulator and the converter history that feeding it whole
    gives. *)
Theorem C4_split_gives_same_frames down g acc b1 b2 :
  streaming down ->
  Nat.even (length b1) = true ->
  feed down g acc [b1; b2] = feed down g acc [b1 ++ b2].
Proof.
  intros Hs Hev. cbn [feed].
  rewrite !processGeminiAudioChunk_eq. cbn [fst snd].
  rewrite Int16Array_view_app by exact Hev.
  rewrite Hs. cbn [fst snd].
  rewrite !app_nil_r.
  set (o1 := snd (full down g (Int16Array_view b1))).
  set (o2 := snd (full down _ (Int16Array_view b2))).
  rewrite (app_assoc acc o1 o2), (extractFrames_app (acc ++ o1) o2 []).
  rewrite (extractFrames_fst_irrel (fst _ ++ o2) (snd _)).
  rewrite (extractFrames_snd_app (fst _ ++ o2) (snd _)). reflexivity.
Qed.

Lemma C4_split_gives_same_frames_witness :
  streaming Decimator /\
  Nat.even (length (ramp 1 250)) = true /\
  feed Decimator 0%nat [] [ramp 1 250; ramp 251 350] =
  feed Decimator 0%nat [] [ramp 1 250 ++ ramp 251 350].
Proof.
  split; [exact Decimator_streaming|].
  split; [vm_compute; reflexivity|].
  apply (C4_split_gives_same_frames Decimator 0%nat [] (ramp 1 250)
           (ramp 251 350) Decimator_streaming).
  vm_compute; reflexivity.
Defined.

(* ===================================================================== *)
(** ** Two connections on the shared converter                            *)
(* ===================================================================== *)

Lemma processGeminiAudioChunk_history_free down g g' acc b :
  history_free down ->
  snd (fst (processGeminiAudioChunk down g acc b)) =
    snd (fst (processGeminiAudioChunk down g' acc b)) /\
  snd (processGeminiAudioChunk down g acc b) =
    snd (processGeminiAudioChunk down g' acc b).
Proof.
  intros Hf. rewrite !processGeminiAudioChunk_eq. cbn [fst snd].
  rewrite (Hf g g'). split; reflexivity.
Qed.

Lemma solo_history_free down chunks : forall g g' s,
  history_free down -> solo down g s chunks = solo down g' s chunks.
Proof.
  unfold solo.
  induction chunks as [|c cs IH]; intros g g' [acc frames] Hf.
  - reflexivity.
  - cbn [feed fst snd].
    destruct (processGeminiAudioChunk_history_free down g g' acc c Hf)
      as [Ha Hfr].
    destruct (processGeminiAudioChunk down g acc c) as [[g1 acc1] fr1].
    destruct (processGeminiAudioChunk down g' acc c) as [[g1' acc1'] fr1'].
    cbn [fst snd] in Ha, Hfr. subst acc1' fr1'.
    specialize (IH g1 g1' (acc1, frames) Hf). cbn [fst snd] in IH.
    destruct (feed down g1 acc1 cs) as [[g2 acc2] frs].
    destruct (feed down g1' acc1 cs) as [[g2' acc2'] frs'].
    cbn [fst snd] in *.
    injection IH as -> Hfrs. apply app_inv_head in Hfrs. subst. reflexivity.
Qed.

Lemma solo_cons down g s c cs :
  solo down g s (c :: cs) =
  solo down (fst (fst (processGeminiAudioChunk down g (fst s) c)))
       (snd (fst (processGeminiAudioChunk down g (fst s) c)),
        snd s ++ snd (processGeminiAudioChunk down g (fst s) c)) cs.
Proof.
  unfold solo. cbn [feed fst snd].
  destruct (processGeminiAudioChunk down g (fst s) c) as [[g1 acc1] fr1].
  cbn [fst snd].
  destruct (feed down g1 acc1 cs) as [[g2 acc2] frs].
  cbn [fst snd]. rewrite app_assoc. reflexivity.
Qed.

(** C3, as the code has it. When the shared converter keeps no history
    between calls, every interleaving of two connections' chunks leaves each
    connection with the accumulator and the frames it gets running alone
    (the accumulators themselves are per connection). *)
Theorem C3_history_free_converter_isolates down trace : forall g a b,
  history_free down ->
  snd (fst (interleave down g a b trace)) =
    solo down g a (chunks_of true trace) /\
  snd (interleave down g a b trace) =
    solo down g b (chunks_of false trace).
Proof.
  induction trace as [|[[|] c] rest IH]; intros g a b Hf.
  - unfold solo. cbn. destruct a, b. rewrite !app_nil_r. split; reflexivity.
  - cbn [interleave]. unfold chunks_of. cbn [filter fst Bool.eqb map snd].
    fold (chunks_of true rest). fold (chunks_of false rest).
    rewrite solo_cons.
    destruct (processGeminiAudioChunk down g (fst a) c) as [[g1 acc1] fr1].
    cbn [fst snd].
    destruct (IH g1 (acc1, snd a ++ fr1) b Hf) as [IHa IHb].
    split; [exact IHa|].
    rewrite IHb. apply solo_history_free. exact Hf.
  - cbn [interleave]. unfold chunks_of. cbn [filter fst Bool.eqb map snd].
    fold (chunks_of true rest). fold (chunks_of false rest).
    rewrite solo_cons.
    destruct (processGeminiAudioChunk down g (fst b) c) as [[g1 acc1] fr1].
    cbn [fst snd].
    destruct (IH g1 a (acc1, snd b ++ fr1) Hf) as [IHa IHb].
    split; [|exact IHb].
    rewrite IHa. apply solo_history_free. exact Hf.
Qed.

Lemma C3_history_free_converter_isolates_witness :
  history_free OneShot /\
  let trace := [(false, ramp 7 1); (true, ramp 10 3)] in
  snd (fst (interleave OneShot tt ([], []) ([], []) trace)) =
    solo OneShot tt ([], []) (chunks_of true trace) /\
  snd (interleave OneShot tt ([], []) ([], []) trace) =
    solo OneShot tt ([], []) (chunks_of false trace).
Proof.
  split; [exact OneShot_history_free|].
  exact (C3_history_free_converter_isolates OneShot
           [(false, ramp 7 1); (true, ramp 10 3)] tt ([], []) ([], [])
           OneShot_history_free).
Defined.

(** With a converter that carries its phase from call to call, one sample
    from connection B before connection A's three samples changes what A
    gets: running alone A's accumulator holds sample 10, after B's call it
    holds sample 12. *)
Lemma C3_shared_converter_counterexample :
  let trace := [(false, ramp 7 1); (true, ramp 10 3)] in
  snd (fst (interleave Decimator 0%nat ([], []) ([], []) trace)) = ([12], []) /\
  solo Decimator 0%nat ([], []) (chunks_of true trace) = ([10], []) /\
  snd (fst (interleave Decimator 0%nat ([], []) ([], []) trace)) <>
    solo Decimator 0%nat ([], []) (chunks_of true trace).
Proof.
  cbv zeta. repeat split; try (vm_compute; reflexivity).
  vm_compute. discriminate.
Qed.

(* ===================================================================== *)
(** ** The tool dispatcher                                                *)
(* ===================================================================== *)

Section DispatcherFacts.

Variable Args : Type.
Variable fs : FileSystem Args.

(** What [getToolHandler] returns is never falsy: the caller's
    [if (!handler)] branch cannot be taken. *)
Lemma getToolHandler_truthy name :
  getToolHandler Args fs name <> Return None.
Proof.
  unfold getToolHandler.
  destruct (find _ _) as [toolPath|]; [|discriminate].
  unfold require. destruct (fs toolPath); cbn; discriminate.
Qed.

(** A name with a file in neither directory makes [getToolHandler] throw. *)
Lemma getToolHandler_missing name :
  fs (path_join "avr_tools" (name ++ ".js")) = None ->
  fs (path_join "tools" (name ++ ".js")) = None ->
  getToolHandler Args fs name =
  Throw ("Tool " ++ dquote ++ name ++ dquote ++
         " not found in any available directory").
Proof.
  intros H1 H2. unfold getToolHandler. cbn [find]. unfold existsSync.
  rewrite H1, H2. reflexivity.
Qed.

Lemma tool_loop_app uuid tr pre : forall rest acc,
  tool_loop Args fs uuid tr (pre ++ rest) acc =
  Result_bind (tool_loop Args fs uuid tr pre acc)
              (fun done => tool_loop Args fs uuid tr rest done).
Proof.
  induction pre as [|fc pre IH]; intros rest acc.
  - reflexivity.
  - cbn [app tool_loop].
    destruct (getToolHandler Args fs (fc_name fc)) as [[h|]|e];
      cbn [Result_bind]; [|apply IH|reflexivity].
    destruct (h uuid (fc_args fc) tr); cbn [Result_bind];
      [apply IH|reflexivity].
Qed.

(** When the loop completes, it has built one response per call, in call
    order, each with the id and the name of its call. *)
Lemma tool_loop_ids uuid tr calls : forall acc rs,
  tool_loop Args fs uuid tr calls acc = Return rs ->
  map (fun r => (fr_id r, fr_name r)) rs =
  map (fun r => (fr_id r, fr_name r)) acc ++
  map (fun c => (fc_id c, fc_name c)) calls.
Proof.
  induction calls as [|fc calls IH]; intros acc rs H.
  - cbn in H. injection H as <-. cbn. rewrite app_nil_r. reflexivity.
  - cbn [tool_loop] in H.
    destruct (getToolHandler Args fs (fc_name fc)) as [[h|]|e];
      cbn [Result_bind] in H; [| |discriminate].
    + destruct (h uuid (fc_args fc) tr); cbn [Result_bind] in H;
        [|discriminate].
      apply IH in H. rewrite H, map_app, <- app_assoc. reflexivity.
    + apply IH in H. rewrite H, map_app, <- app_assoc. reflexivity.
Qed.

(** A batch that names a tool with no file never completes: no list of
    responses comes out of the loop. *)
Lemma tool_loop_missing uuid tr calls fc : forall acc rs,
  In fc calls ->
  fs (path_join "avr_tools" (fc_name fc ++ ".js")) = None ->
  fs (path_join "tools" (fc_name fc ++ ".js")) = None ->
  tool_loop Args fs uuid tr calls acc <> Return rs.
Proof.
  induction calls as [|c calls IH]; intros acc rs Hin H1 H2; [destruct Hin|].
  cbn [tool_loop]. destruct Hin as [->|Hin].
  - rewrite (getToolHandler_missing _ H1 H2). discriminate.
  - destruct (getToolHandler Args fs (fc_name c)) as [[h|]|e];
      cbn [Result_bind]; [| |discriminate].
    + destruct (h uuid (fc_args c) tr); cbn [Result_bind];
        [|discriminate].
      apply IH; assumption.
    + apply IH; assumption.
Qed.

End DispatcherFacts.

(* ===================================================================== *)
(** ** The upstream event handler                                         *)
(* ===================================================================== *)

Section HandlerFacts.

Variable Args : Type.
Variables down up : Converter.
Variable fs : FileSystem Args.

Lemma bind_quiet {A B} (m : M down up A) (k : A -> M down up B) st a :
  snd (fst (m st)) = [] ->
  snd (m st) = Return a ->
  bind down up m k st = k a (fst (fst (m st))).
Proof.
  unfold bind. destruct (m st) as [[st1 out1] r]. cbn [fst snd].
  intros -> ->. destruct (k a st1) as [[st2 out2] r2]. reflexivity.
Qed.

(** The [if (message.text)] block sends nothing, never throws and leaves
    the connection's variables and the converters alone. *)
Lemma user_text_quiet now (m : LiveServerMessage Args) st :
  snd (fst (user_text Args down up now m st)) = [] /\
  snd (user_text Args down up now m st) = Return tt /\
  snd (fst (fst (user_text Args down up now m st))) = snd st /\
  globalDownsampler (fst (fst (fst (user_text Args down up now m st)))) =
    globalDownsampler (fst st).
Proof.
  unfold user_text. destruct st as [g c].
  destruct (truthy (text m)); cbn; repeat split; reflexivity.
Qed.

(** The interruption branch: it resets [audioFrames] and tells the client;
    the accumulator [audioBuffer8k] is what it was. *)
Lemma onmessage_interrupted_keeps_accumulator now
    (m : LiveServerMessage Args) st :
  setupComplete m = false ->
  modelTurn_parts m = None ->
  toolCall_functionCalls m = None ->
  interrupted m = true ->
  let r := onmessage Args down up fs now m st in
  snd (fst r) = [clientWs_send interruption] /\
  snd r = Return tt /\
  audioFrames (snd (fst (fst r))) = [] /\
  audioBuffer8k (snd (fst (fst r))) = audioBuffer8k (snd st).
Proof.
  intros H1 H2 H3 H4. cbv zeta. unfold onmessage.
  rewrite H1, H2, H3, H4.
  destruct (user_text_quiet now m st) as (Ho & Hr & Hc & _).
  rewrite (bind_quiet _ _ _ tt Ho Hr).
  cbn. rewrite Hc. repeat split; reflexivity.
Qed.

(** C5, as the code has it. When the handler of a call throws (the calls
    before it having completed), the exception leaves [onmessage] uncaught:
    no tool-response batch is sent, nothing is sent to the client, and the
    connection's variables are unchanged; no result text stands in for the
    exception. *)
Theorem C5_handler_exception_escapes now (m : LiveServerMessage Args) st
    pre fc post done h e :
  setupComplete m = false ->
  modelTurn_parts m = None ->
  toolCall_functionCalls m = Some (pre ++ fc :: post) ->
  let tr := transcripts (fst (fst (fst (user_text Args down up now m st)))) in
  tool_loop Args fs (sessionUuid (snd st)) tr pre [] = Return done ->
  getToolHandler Args fs (fc_name fc) = Return (Some h) ->
  h (sessionUuid (snd st)) (fc_args fc) tr = Throw e ->
  let r := onmessage Args down up fs now m st in
  snd r = Throw e /\ snd (fst r) = [] /\ snd (fst (fst r)) = snd st.
Proof.
  intros H1 H2 H3 tr Hpre Hres Hthrow. cbv zeta. unfold onmessage.
  rewrite H1, H2, H3.
  destruct (user_text_quiet now m st) as (Ho & Hr & Hc & _).
  rewrite (bind_quiet _ _ _ tt Ho Hr).
  subst tr. unfold bind, get, lift. cbn [fst snd]. rewrite Hc.
  rewrite tool_loop_app, Hpre. cbn [Result_bind tool_loop].
  rewrite Hres. cbn [Result_bind]. rewrite Hthrow. cbn [Result_bind fst snd].
  split; [reflexivity | split; [reflexivity | exact Hc]].
Qed.

(** C6, as the code has it. When [connectToGeminiSdk] rejects after an
    [init], exactly one [error] message goes to the client and nothing
    else happens: [session] stays [null] (the connection never becomes
    active), no exception is left uncaught, the client socket is not
    closed, and every later [audio] message from the client is ignored. *)
Theorem C6_failed_open_one_error_socket_left_open
    (g : Global down up) uuid e :
  let r := run Args down up fs
             [ClientMessage_ev (init uuid); ConnectSettled (Throw e)]
             (g, handleClientConnection) in
  snd (fst r) =
    [clientWs_send (error "Failed to initialize Gemini connection")] /\
  snd r = [] /\
  session (snd (fst (fst r))) = None /\
  ~ In clientWs_close (snd (fst r)) /\
  forall a,
    handle Args down up fs (ClientMessage_ev (audio_in a)) (fst (fst r)) =
    (fst (fst r), [], Return tt).
Proof.
  cbv zeta. cbn.
  split; [reflexivity|]. split; [reflexivity|]. split; [reflexivity|].
  split.
  - intros [H|[]]. discriminate H.
  - intros [a|]; reflexivity.
Qed.

End HandlerFacts.

(** C1, on the code. A connection receives 600 samples of audio (one frame
    goes out, 40 converted samples stay in the accumulator), then the
    interruption signal, then 360 samples of new audio. The signal leaves
    the 40 samples in the accumulator, and the next frame sent to the
    client starts with them: 80 bytes of audio from before the signal. *)
Theorem C1_stale_samples_sent_after_interruption :
  let before :=
    run unit Decimator Doubler fs_demo
      [UpstreamMessage "t0" (audio_message (ramp 1 600));
       UpstreamMessage "t1" interruption_message] active0 in
  let stale := audioBuffer8k (snd (fst (fst before))) in
  let after :=
    handle unit Decimator Doubler fs_demo
      (UpstreamMessage "t2" (audio_message (ramp 1001 360)))
      (fst (fst before)) in
  stale = skipn 160 (snd (decimate3 0 (Int16Array_view (ramp 1 600)))) /\
  length stale = 40%nat /\
  (exists first,
     snd (fst before) =
       [clientWs_send (audio first); clientWs_send interruption]) /\
  (exists frame,
     snd (fst after) = [clientWs_send (audio frame)] /\
     firstn 80 frame = Buffer_from_Int16Array stale).
Proof.
  cbv zeta.
  split; [vm_compute; reflexivity|].
  split; [vm_compute; reflexivity|].
  split.
  - eexists. vm_compute. reflexivity.
  - eexists. split; vm_compute; reflexivity.
Qed.

(** C2, on the code. A batch of two calls, the second naming a tool that
    has no file: [getToolHandler] throws, [onmessage] ends with that
    exception, and no response is sent, not even for the first call. *)
Theorem C2_unknown_tool_sends_no_response :
  let r :=
    handle unit Decimator Doubler fs_demo
      (UpstreamMessage "t"
         (toolCall_message [call "1" "get_time"; call "2" "no_such_tool"]))
      active0 in
  snd (fst r) = [] /\
  snd r = Throw ("Tool " ++ dquote ++ "no_such_tool" ++ dquote ++
                 " not found in any available directory").
Proof. cbv zeta. split; vm_compute; reflexivity. Qed.

(** The same batch with both names resolved is answered in one batch, in
    call order. *)
Example tool_batch_answered :
  snd (fst (handle unit Decimator Doubler fs_demo
              (UpstreamMessage "t"
                 (toolCall_message [call "1" "get_time"; call "2" "get_time"]))
              active0)) =
  [session_sendToolResponse
     [{| fr_id := "1"; fr_name := "get_time"; fr_result := "It is noon." |};
      {| fr_id := "2"; fr_name := "get_time"; fr_result := "It is noon." |}]].
Proof. vm_compute. reflexivity. Qed.

Lemma C5_handler_exception_escapes_witness :
  let m := toolCall_message [call "1" "get_time"; call "2" "crash"] in
  let r := onmessage unit Decimator Doubler fs_demo "t" m active0 in
  snd r = Throw "boom"%string /\ snd (fst r) = [] /\
  snd (fst (fst r)) = snd active0.
Proof.
  apply (C5_handler_exception_escapes unit Decimator Doubler fs_demo "t"
           (toolCall_message [call "1" "get_time"; call "2" "crash"]) active0
           [call "1" "get_time"] (call "2" "crash") []
           [{| fr_id := "1"; fr_name := "get_time";
               fr_result := "It is noon." |}]
           (fun _ _ _ => Throw "boom"%string) "boom");
    reflexivity.
Defined.

(** A handler that throws gets no response at all: the batch with the
    [crash] tool ends in the exception and sends nothing upstream. *)
Lemma C5_throwing_handler_counterexample :
  let r :=
    handle unit Decimator Doubler fs_demo
      (UpstreamMessage "t"
         (toolCall_message [call "1" "get_time"; call "2" "crash"]))
      active0 in
  snd r = Throw "boom"%string /\
  forall rs, ~ In (session_sendToolResponse rs) (snd (fst r)).
Proof.
  cbv zeta. split; [vm_compute; reflexivity|].
  intros rs H. vm_compute in H. exact H.
Qed.

(** After a failed open the client socket is not closed. *)
Lemma C6_socket_not_closed_counterexample :
  let r :=
    run unit Decimator Doubler fs_demo
      [ClientMessage_ev (init "abc"); ConnectSettled (Throw "refused")]
      (global0, handleClientConnection) in
  snd (fst r) =
    [clientWs_send (error "Failed to initialize Gemini connection")] /\
  ~ In clientWs_close (snd (fst r)).
Proof.
  cbv zeta. split; [vm_compute; reflexivity|].
  intros H. vm_compute in H. destruct H as [H|[]]. discriminate H.
Qed.

(* ===================================================================== *)
(** ** The calendar timestamps                                            *)
(* ===================================================================== *)

Module CalendarFacts.
Import Calendar.

Lemma plain_uint u : plain (NilEmpty.string_of_uint u) = true.
Proof. induction u; cbn; auto. Qed.

Lemma plain_toString z : plain (toString z) = true.
Proof.
  unfold toString, NilZero.string_of_int, NilZero.string_of_uint.
  destruct (Z.to_int z) as [u|u].
  - destruct u; try reflexivity; apply (plain_uint (_ u)).
  - cbn [plain]. destruct u; try reflexivity; apply (plain_uint (_ u)).
Qed.

Lemma plain_padStart2 s : plain s = true -> plain (padStart2 s) = true.
Proof.
  intros H. unfold padStart2.
  destruct s as [|a [|b tl]]; cbn [String.length]; [reflexivity| |exact H].
  cbn in *. exact H.
Qed.

Lemma plain_char_not_T c :
  (is_digit c || Ascii.eqb c "-") = true -> Ascii.eqb c "T" = false.
Proof.
  destruct c as [[|] [|] [|] [|] [|] [|] [|] [|]];
    cbn; intros H; try reflexivity; discriminate H.
Qed.

Lemma plain_char_not_colon c :
  (is_digit c || Ascii.eqb c "-") = true -> Ascii.eqb c ":" = false.
Proof.
  destruct c as [[|] [|] [|] [|] [|] [|] [|] [|]];
    cbn; intros H; try reflexivity; discriminate H.
Qed.

Lemma after_T_skip d r : plain d = true -> after_T (d ++ r) = after_T r.
Proof.
  induction d as [|c d IH]; intros H; [reflexivity|].
  cbn in H. apply andb_prop in H as [Hc Hd].
  cbn [append after_T]. rewrite (plain_char_not_T c Hc). apply IH, Hd.
Qed.

Lemma before_colon_plain h r :
  plain h = true -> before_colon (h ++ String ":" r) = h.
Proof.
  induction h as [|c h IH]; intros H; [reflexivity|].
  cbn in H. apply andb_prop in H as [Hc Hh].
  cbn [append before_colon]. rewrite (plain_char_not_colon c Hc).
  f_equal. apply IH, Hh.
Qed.

(** The hour field of a timestamp assembled as the template literal does. *)
Lemma hour_field_template y m d h rest :
  plain y = true -> plain m = true -> plain d = true -> plain h = true ->
  after_T (y ++ "-" ++ m ++ "-" ++ d ++ "T" ++ h ++ ":" ++ rest) =
    Some (h ++ ":" ++ rest)%string /\
  hour_field (y ++ "-" ++ m ++ "-" ++ d ++ "T" ++ h ++ ":" ++ rest) = Some h.
Proof.
  intros Hy Hm Hd Hh.
  assert (after_T (y ++ "-" ++ m ++ "-" ++ d ++ "T" ++ h ++ ":" ++ rest) =
          Some (h ++ ":" ++ rest)%string) as Ha.
  { rewrite (after_T_skip y) by exact Hy. cbn [append after_T Ascii.eqb Bool.eqb].
    rewrite (after_T_skip m) by exact Hm. cbn [append after_T Ascii.eqb Bool.eqb].
    rewrite (after_T_skip d) by exact Hd. reflexivity. }
  split; [exact Ha|].
  unfold hour_field. rewrite Ha. cbn [option_map append].
  rewrite before_colon_plain by exact Hh. reflexivity.
Qed.

Lemma iso8601_time_minus r : iso8601_time_wf (String "-" r) = false.
Proof.
  unfold iso8601_time_wf.
  repeat (destruct r as [|? r]; try reflexivity).
Qed.

(** C10. For every date and every time whose fields parse, the free/busy
    request and the booked event carry the same two timestamps; the hour
    field of the start is the text of [hour - 1] and that of the end is the
    text of [hour + floor((minute + duration) / 60) - 1], whatever the
    date. With hour 0 the start's hour field is "-1" and the timestamp is
    not a well-formed ISO 8601 time. The hours are never reduced modulo 24:
    when the end is at or past midnight the code's [endHour] is at least
    24, and when it is at or past midnight on the code's UTC clock the hour
    written into the end timestamp is at least 24. *)
Theorem C10_fixed_offset_hours date time duration_minutes
    calendarId client_name client_email purpose year month day hour minute :
  field "-" date 0 = Some year ->
  field "-" date 1 = Some month ->
  field "-" date 2 = Some day ->
  field ":" time 0 = Some hour ->
  field ":" time 1 = Some minute ->
  exists req ev,
    checkAvailability date time duration_minutes calendarId =
      Some req /\
    bookAppointment client_name client_email date time
      duration_minutes purpose = Some ev /\
    start_dateTime ev = timeMin req /\
    end_dateTime ev = timeMax req /\
    hour_field (timeMin req) = Some (padStart2 (toString (hour - 1))) /\
    hour_field (timeMax req) =
      Some (padStart2
              (toString (hour + (minute + duration_minutes) / 60 - 1))) /\
    (hour = 0 ->
       hour_field (timeMin req) = Some "-1"%string /\
       iso8601_wf (timeMin req) = false) /\
    (1440 <= 60 * hour + minute + duration_minutes ->
       24 <= hour + (minute + duration_minutes) / 60) /\
    (1440 <= 60 * (hour - 1) + minute + duration_minutes ->
       24 <= hour + (minute + duration_minutes) / 60 - 1).
Proof.
  intros Hy Hm Hd Hh Hmin.
  unfold checkAvailability, bookAppointment.
  rewrite Hy, Hm, Hd, Hh, Hmin. cbv zeta.
  eexists. eexists.
  split; [reflexivity|]. split; [reflexivity|].
  cbn [start_dateTime end_dateTime timeMin timeMax].
  split; [reflexivity|]. split; [reflexivity|].
  pose proof (plain_toString year) as Py.
  pose proof (plain_padStart2 _ (plain_toString month)) as Pm.
  pose proof (plain_padStart2 _ (plain_toString day)) as Pd.
  split; [|split; [|split; [|split]]].
  - apply hour_field_template; try assumption.
    apply plain_padStart2, plain_toString.
  - apply hour_field_template; try assumption.
    apply plain_padStart2, plain_toString.
  - intros ->.
    destruct (hour_field_template (toString year) (padStart2 (toString month))
                (padStart2 (toString day)) (padStart2 (toString (0 - 1)))
                (padStart2 (toString minute) ++ ":00Z") Py Pm Pd eq_refl)
      as [Ha Hf].
    split; [exact Hf|].
    unfold iso8601_wf. rewrite Ha. apply iso8601_time_minus.
  - intros H.
    pose proof (Z.mul_div_le (minute + duration_minutes) 60 ltac:(lia)).
    pose proof (Z.mod_pos_bound (minute + duration_minutes) 60 ltac:(lia)).
    pose proof (Z.div_mod (minute + duration_minutes) 60 ltac:(lia)).
    lia.
  - intros H.
    pose proof (Z.mod_pos_bound (minute + duration_minutes) 60 ltac:(lia)).
    pose proof (Z.div_mod (minute + duration_minutes) 60 ltac:(lia)).
    lia.
Qed.

Lemma C10_fixed_offset_hours_witness :
  exists req ev,
    checkAvailability "2025-12-24" "00:30" 30 "primary" =
      Some req /\
    bookAppointment "Ada" "ada@example.org" "2025-12-24" "00:30" 30
      "Maintenance" = Some ev /\
    start_dateTime ev = timeMin req /\
    end_dateTime ev = timeMax req /\
    hour_field (timeMin req) = Some (padStart2 (toString (0 - 1))) /\
    hour_field (timeMax req) =
      Some (padStart2 (toString (0 + (30 + 30) / 60 - 1))) /\
    (0 = 0 ->
       hour_field (timeMin req) = Some "-1"%string /\
       iso8601_wf (timeMin req) = false) /\
    (1440 <= 60 * 0 + 30 + 30 -> 24 <= 0 + (30 + 30) / 60) /\
    (1440 <= 60 * (0 - 1) + 30 + 30 -> 24 <= 0 + (30 + 30) / 60 - 1).
Proof.
  apply (C10_fixed_offset_hours "2025-12-24" "00:30" 30 "primary" "Ada"
           "ada@example.org" "Maintenance" 2025 12 24 0 30);
    reflexivity.
Defined.

(** On 23:30 for 60 minutes the end is 24:30 local: [endHour] is 24 and the
    end timestamp carries hour 23 of the same day. *)
Example late_booking_end :
  option_map timeMax
    (checkAvailability "2025-12-24" "23:30" 60 "primary") =
  Some "2025-12-24T23:30:00Z"%string.
Proof. reflexivity. Qed.

(** On 23:30 for 120 minutes the end timestamp carries hour 24. *)
Example late_booking_hour_24 :
  option_map timeMax
    (checkAvailability "2025-12-24" "23:30" 120 "primary") =
  Some "2025-12-24T24:30:00Z"%string.
Proof. reflexivity. Qed.

End CalendarFacts.

(* ===================================================================== *)
(** ** More on buffers and the framing pipeline                           *)
(* ===================================================================== *)

Lemma ToInt16_mod z : ToInt16 (z mod 65536) = ToInt16 z.
Proof. unfold ToInt16. rewrite Z.mod_mod by lia. reflexivity. Qed.

Lemma ToInt16_mod_eq z : ToInt16 z mod 65536 = z mod 65536.
Proof.
  unfold ToInt16. destruct (32768 <=? z mod 65536).
  - replace (z mod 65536 - 65536) with (z mod 65536 + (-1) * 65536) by lia.
    rewrite Z.mod_add by lia. apply Z.mod_mod. lia.
  - apply Z.mod_mod. lia.
Qed.

Lemma ToInt16_idempotent z : ToInt16 (ToInt16 z) = ToInt16 z.
Proof.
  unfold ToInt16 at 1. cbv zeta. rewrite ToInt16_mod_eq. reflexivity.
Qed.

Lemma ToInt16_in_range z : -32768 <= z < 32768 -> ToInt16 z = z.
Proof.
  intros H. unfold ToInt16.
  destruct (Z_lt_le_dec z 0) as [Hneg|Hpos].
  - replace (z mod 65536) with (z + 65536).
    + destruct (32768 <=? z + 65536) eqn:E; [lia|].
      apply Z.leb_gt in E. lia.
    + apply Z.mod_unique with (-1); lia.
  - rewrite Z.mod_small by lia.
    destruct (32768 <=? z) eqn:E; [apply Z.leb_le in E; lia | reflexivity].
Qed.

(** X1. Writing samples with [Buffer.from(Int16Array.from(..).buffer)] and
    reading the bytes back through an [Int16Array] view gives every sample
    wrapped to 16 bits, in order; a sample already in the 16-bit range
    comes back unchanged. *)
Theorem view_of_written_samples xs :
  Int16Array_view (Buffer_from_Int16Array xs) = map ToInt16 xs /\
  map ToInt16 (map ToInt16 xs) = map ToInt16 xs /\
  Int16Array_view (Buffer_from_Int16Array (map ToInt16 xs)) = map ToInt16 xs.
Proof.
  assert (forall l, Int16Array_view (Buffer_from_Int16Array l) =
                    map ToInt16 l) as Hview.
  { induction l as [|x tl IH]; [reflexivity|].
    unfold Buffer_from_Int16Array in *. cbn [flat_map map].
    unfold int16_bytes at 1. cbn [app Int16Array_view]. rewrite IH. f_equal.
    set (w := ToInt16 x mod 65536).
    replace (w mod 256 + 256 * (w / 256)) with w
      by (pose proof (Z.div_mod w 256 ltac:(lia)); lia).
    subst w. rewrite ToInt16_mod. apply ToInt16_idempotent. }
  assert (map ToInt16 (map ToInt16 xs) = map ToInt16 xs) as Hidem.
  { rewrite map_map. apply map_ext. intros a. apply ToInt16_idempotent. }
  split; [apply Hview|]. split; [exact Hidem|].
  rewrite Hview. exact Hidem.
Qed.

(** X2. A buffer of an even number of bytes, read through an [Int16Array]
    view and written back, is the same buffer. *)
Theorem written_view_is_the_buffer b :
  bytes b ->
  Nat.even (length b) = true ->
  Buffer_from_Int16Array (Int16Array_view b) = b.
Proof.
  revert b. fix IH 1. intros [|lo [|hi tl]] Hb Hev.
  - reflexivity.
  - discriminate Hev.
  - inversion Hb as [|? ? Hlo Hb1]; subst.
    inversion Hb1 as [|? ? Hhi Hb2]; subst.
    cbn [Int16Array_view]. unfold Buffer_from_Int16Array. cbn [flat_map].
    fold (Buffer_from_Int16Array (Int16Array_view tl)).
    rewrite (IH tl Hb2 Hev).
    unfold int16_bytes. cbv zeta. rewrite !ToInt16_mod_eq.
    rewrite !(Z.mod_small (lo + 256 * hi) 65536) by lia.
    cbn [app]. f_equal; [|f_equal].
    + symmetry. apply Z.mod_unique with hi; lia.
    + symmetry. apply Z.div_unique with lo; lia.
Qed.

Lemma written_view_is_the_buffer_witness :
  bytes [1; 2; 255; 127] /\
  Nat.even (length [1; 2; 255; 127]) = true /\
  Buffer_from_Int16Array (Int16Array_view [1; 2; 255; 127]) = [1; 2; 255; 127].
Proof.
  assert (bytes [1; 2; 255; 127]) as Hb by (repeat constructor; lia).
  split; [exact Hb|]. split; [reflexivity|].
  apply (written_view_is_the_buffer [1; 2; 255; 127] Hb). reflexivity.
Defined.

Lemma concat_frames stream k :
  concat (map (frame_at stream) (seq 0 k)) =
  Buffer_from_Int16Array (firstn (160 * k) stream).
Proof.
  induction k as [|k IH]; [reflexivity|].
  rewrite seq_S, map_app, concat_app, IH. cbn [map concat plus].
  rewrite app_nil_r. unfold frame_at.
  rewrite <- Buffer_from_Int16Array_app. f_equal.
  replace (160 * S k)%nat with (160 * k + 160)%nat by lia.
  rewrite <- (firstn_skipn (160 * k) (firstn (160 * k + 160) stream)).
  rewrite firstn_firstn, Nat.min_l by lia. f_equal.
  rewrite skipn_firstn_comm. f_equal. lia.
Qed.

(** X3. One call of [processGeminiAudioChunk] neither loses, nor repeats,
    nor reorders a sample: the frames it returns, followed by what it
    leaves in the accumulator, are the bytes of the old accumulator
    followed by the samples the converter delivered. *)
Theorem frames_and_rest_make_the_stream down g acc inputBuffer :
  let r := processGeminiAudioChunk down g acc inputBuffer in
  concat (snd r) ++ Buffer_from_Int16Array (snd (fst r)) =
  Buffer_from_Int16Array
    (acc ++ snd (full down g (Int16Array_view inputBuffer))).
Proof.
  cbv zeta. rewrite processGeminiAudioChunk_eq. cbn [fst snd].
  rewrite extractFrames_spec. cbn [fst snd app].
  rewrite concat_frames, <- Buffer_from_Int16Array_app, firstn_skipn.
  reflexivity.
Qed.

(** X4. While the accumulator and the new samples together are short of
    160 samples, nothing is returned and the new samples are appended to
    the accumulator. *)
Theorem short_input_returns_no_frame down g acc inputBuffer :
  (length acc + length (snd (full down g (Int16Array_view inputBuffer)))
   < 160)%nat ->
  let r := processGeminiAudioChunk down g acc inputBuffer in
  snd r = [] /\
  snd (fst r) = acc ++ snd (full down g (Int16Array_view inputBuffer)).
Proof.
  intros H. cbv zeta. rewrite processGeminiAudioChunk_eq. cbn [fst snd].
  rewrite extractFrames_lt by (rewrite length_app; exact H).
  split; reflexivity.
Qed.

Lemma short_input_returns_no_frame_witness :
  (length [5; 6]%Z +
   length (snd (full Decimator 0%nat (Int16Array_view (ramp 1 300)))) < 160)%nat /\
  let r := processGeminiAudioChunk Decimator 0%nat [5; 6]%Z (ramp 1 300) in
  snd r = [] /\
  snd (fst r) = [5; 6]%Z ++ snd (full Decimator 0%nat (Int16Array_view (ramp 1 300))).
Proof.
  assert (length [5; 6]%Z +
          length (snd (full Decimator 0%nat (Int16Array_view (ramp 1 300))))
          < 160)%nat as H by (vm_compute; lia).
  split; [exact H|].
  exact (short_input_returns_no_frame Decimator 0%nat [5; 6]%Z (ramp 1 300) H).
Defined.

Lemma first_frame_starts_with_accumulator_witness :
  (length [5; 6]%Z <= 160)%nat /\
  (160 <= length ([5; 6]%Z ++
                  snd (full Decimator 0%nat (Int16Array_view (ramp 1 600)))))%nat /\
  exists frame rest,
    snd (processGeminiAudioChunk Decimator 0%nat [5; 6]%Z (ramp 1 600)) =
      frame :: rest /\
    firstn (2 * length [5; 6]%Z) frame = Buffer_from_Int16Array [5; 6]%Z.
Proof.
  assert (length [5; 6]%Z <= 160)%nat as H1 by (cbn; lia).
  assert (160 <= length ([5; 6]%Z ++
            snd (full Decimator 0%nat (Int16Array_view (ramp 1 600)))))%nat
    as H2 by (vm_compute; lia).
  split; [exact H1|]. split; [exact H2|].
  exact (first_frame_starts_with_accumulator Decimator 0%nat [5; 6]%Z
           (ramp 1 600) H1 H2).
Defined.

(* ===================================================================== *)
(** ** More on the handlers of one connection                             *)
(* ===================================================================== *)

Section ConnectionFacts.

Variable Args : Type.
Variables down up : Converter.
Variable fs : FileSystem Args.

Lemma forEach_emit_frames frames (st : State down up) :
  forEach down up frames
    (fun frame => emit down up (clientWs_send (audio frame))) st =
  (st, map (fun frame => clientWs_send (audio frame)) frames, Return tt).
Proof.
  induction frames as [|f tl IH]; [reflexivity|].
  cbn [forEach]. unfold bind at 1. cbn [emit]. rewrite IH. reflexivity.
Qed.

(** One part of a model turn, as a state change. *)
Lemma handle_part_eq now part (g : Global down up) c :
  handle_part down up now part (g, c) =
  (let r :=
     match inlineData part with
     | Some b =>
         processGeminiAudioChunk down (globalDownsampler g)
                                 (audioBuffer8k c) b
     | None => (globalDownsampler g, audioBuffer8k c, [])
     end in
   ((Build_Global down up (fst (fst r)) (globalUpsampler g)
      match truthy (part_text part) with
      | Some t =>
          transcript_push (transcripts g) (sessionUuid c)
            {| speaker := "AI"; entry_text := t; timestamp := now |}
      | None => transcripts g
      end,
    {| sessionUuid := sessionUuid c;
       audioBuffer8k := snd (fst r);
       session := session c;
       audioFrames :=
         match inlineData part with
         | Some _ => snd r
         | None => audioFrames c
         end |}),
    map (fun frame => clientWs_send (audio frame)) (snd r),
    Return tt)).
Proof.
  destruct g as [d u tr], c as [uuid acc s fr].
  unfold handle_part. destruct (inlineData part) as [b|].
  - unfold bind at 1. unfold bind at 1. unfold processGeminiAudioChunk_M.
    unfold bind at 1. cbn [get fst snd globalDownsampler globalUpsampler
                           transcripts audioBuffer8k sessionUuid session
                           audioFrames].
    destruct (processGeminiAudioChunk down d acc b) as [[d' acc'] frames].
    cbn [bind put ret get set_conn fst snd app sessionUuid session
         audioBuffer8k audioFrames].
    rewrite forEach_emit_frames.
    destruct (truthy (part_text part)); cbn; rewrite ?app_nil_r; reflexivity.
  - destruct (truthy (part_text part)); cbn; reflexivity.
Qed.

(** A property of the state that every step keeps is kept by the loop. *)
Lemma forEach_keeps (I : State down up -> Prop) {A} (l : list A)
    (f : A -> M down up unit) :
  (forall x st, I st -> I (fst (fst (f x st)))) ->
  forall st, I st -> I (fst (fst (forEach down up l f st))).
Proof.
  intros Hf. induction l as [|x tl IH]; intros st Hst; [exact Hst|].
  cbn [forEach]. unfold bind.
  specialize (Hf x st Hst). destruct (f x st) as [[st1 out1] [[]|e]].
  - specialize (IH st1 Hf).
    destruct (forEach down up tl f st1) as [[st2 out2] r]. exact IH.
  - exact Hf.
Qed.

Lemma bind_user_text now (m : LiveServerMessage Args) {B}
    (k : unit -> M down up B) st :
  bind down up (user_text Args down up now m) k st =
  k tt (fst (fst (user_text Args down up now m st))).
Proof.
  destruct (user_text_quiet Args down up now m st) as (Ho & Hr & _).
  apply bind_quiet; assumption.
Qed.

Lemma user_text_eq now (m : LiveServerMessage Args) (g : Global down up) c :
  fst (fst (user_text Args down up now m (g, c))) =
  (Build_Global down up (globalDownsampler g) (globalUpsampler g)
     match truthy (text m) with
     | Some t =>
         transcript_push (transcripts g) (sessionUuid c)
           {| speaker := "User"; entry_text := t; timestamp := now |}
     | None => transcripts g
     end, c).
Proof.
  destruct g as [d u tr]. unfold user_text.
  destruct (truthy (text m)); reflexivity.
Qed.

(** A property of the state that does not look at the transcripts, the
    downsampler, the accumulator or [audioFrames] survives [onmessage]
    whenever the model-turn loop keeps it. *)
Lemma onmessage_keeps (I : State down up -> Prop) now
    (m : LiveServerMessage Args) :
  (forall g c tr, I (g, c) ->
     I (Build_Global down up (globalDownsampler g) (globalUpsampler g) tr, c)) ->
  (forall g c, I (g, c) ->
     I (g, {| sessionUuid := sessionUuid c; audioBuffer8k := audioBuffer8k c;
              session := session c; audioFrames := [] |})) ->
  (forall part st, I st -> I (fst (fst (handle_part down up now part st)))) ->
  forall st, I st -> I (fst (fst (onmessage Args down up fs now m st))).
Proof.
  intros Htr Hfr Hpart [g c] Hst. unfold onmessage.
  destruct (setupComplete m); [exact Hst|].
  rewrite bind_user_text, user_text_eq.
  set (g1 := Build_Global down up _ _ _).
  assert (I (g1, c)) as H1 by (apply Htr; exact Hst).
  destruct (modelTurn_parts m) as [parts|].
  - apply forEach_keeps; [exact Hpart | exact H1].
  - destruct (toolCall_functionCalls m) as [fcs|].
    + unfold bind, get, lift, on_session. cbn [fst snd].
      destruct (tool_loop Args fs (sessionUuid c) (transcripts g1) fcs [])
        as [rs|e]; [|exact H1].
      cbn -[g1]. destruct (session c); exact H1.
    + destruct (interrupted m); [|exact H1].
      cbn. apply (Hfr g1 c H1).
Qed.

(** Every handler keeps the accumulator shorter than one frame. *)
Lemma handle_keeps_accumulator_short (ev : Event Args) st :
  (length (audioBuffer8k (snd st)) < 160)%nat ->
  (length (audioBuffer8k (snd (fst (fst (handle Args down up fs ev st)))))
   < 160)%nat.
Proof.
  destruct ev as [cm|r|now m|e| |]; destruct st as [g c]; intros H.
  - destruct cm as [uuid|a|]; cbn [handle on_client_message].
    + exact H.
    + unfold bind, get. cbn [fst snd].
      destruct a as [b|]; [|exact H]. destruct (session c); [|exact H].
      unfold convert8kTo16k, bind, get. cbn [fst snd].
      destruct (full up (globalUpsampler g) (Int16Array_view b)); exact H.
    + exact H.
  - destruct r as [s|e]; exact H.
  - cbn [handle].
    apply (onmessage_keeps
             (fun st => (length (audioBuffer8k (snd st)) < 160)%nat));
      [intros; assumption | intros; assumption | | exact H].
    intros part [g1 c1] H1. rewrite handle_part_eq. cbn [fst snd audioBuffer8k].
    destruct (inlineData part) as [b|].
    + rewrite processGeminiAudioChunk_eq. cbn [fst snd].
      apply extractFrames_rest_short.
    + exact H1.
  - exact H.
  - exact H.
  - cbn [handle]. unfold cleanup, bind, get. cbn [fst snd].
    destruct (session c); cbn;
      (destruct (truthy (sessionUuid c)) as [uuid|]; cbn; [|exact H]);
      (destruct (transcripts g uuid); cbn; exact H).
Qed.

Lemma run_app (l1 l2 : list (Event Args)) st :
  run Args down up fs (l1 ++ l2) st =
  (fst (fst (run Args down up fs l2 (fst (fst (run Args down up fs l1 st))))),
   snd (fst (run Args down up fs l1 st)) ++
   snd (fst (run Args down up fs l2 (fst (fst (run Args down up fs l1 st))))),
   snd (run Args down up fs l1 st) ++
   snd (run Args down up fs l2 (fst (fst (run Args down up fs l1 st))))).
Proof.
  revert st. induction l1 as [|ev rest IH]; intros st.
  - cbn [app run fst snd]. destruct (run Args down up fs l2 st) as [[? ?] ?].
    reflexivity.
  - cbn [app run]. destruct (handle Args down up fs ev st) as [[st1 out1] r].
    rewrite IH. destruct (run Args down up fs rest st1) as [[st2 out2] errs].
    cbn [fst snd]. rewrite app_assoc. destruct r; reflexivity.
Qed.

(** X5. Whatever happens to a connection, its accumulator stays shorter
    than one frame: an accumulator under 160 samples is still under 160
    samples after any sequence of events. *)
Theorem run_keeps_accumulator_short (evs : list (Event Args)) : forall st,
  (length (audioBuffer8k (snd st)) < 160)%nat ->
  (length (audioBuffer8k (snd (fst (fst (run Args down up fs evs st)))))
   < 160)%nat.
Proof.
  induction evs as [|ev rest IH]; intros st H; [exact H|].
  cbn [run]. pose proof (handle_keeps_accumulator_short ev st H) as H1.
  destruct (handle Args down up fs ev st) as [[st1 out1] r].
  specialize (IH st1 H1).
  destruct (run Args down up fs rest st1) as [[st2 out2] errs]. exact IH.
Qed.

Lemma forEach_returns {A} (l : list A) (f : A -> M down up unit) :
  (forall x st, snd (f x st) = Return tt) ->
  forall st, snd (forEach down up l f st) = Return tt.
Proof.
  intros Hf. induction l as [|x tl IH]; intros st; [reflexivity|].
  cbn [forEach]. unfold bind. specialize (Hf x st).
  destruct (f x st) as [[st1 out1] r]. cbn [snd] in Hf. subst r.
  specialize (IH st1).
  destruct (forEach down up tl f st1) as [[st2 out2] r]. exact IH.
Qed.

(** X6. A message that carries model-turn parts is handled as a model turn
    only: whatever else it carries (tool calls, the [interrupted] flag),
    [onmessage] sends nothing but [audio] messages to the client - no
    [interruption], no tool response - and ends normally. *)
Theorem model_turn_sends_only_audio now (m : LiveServerMessage Args) parts st :
  modelTurn_parts m = Some parts ->
  Forall is_client_audio (snd (fst (onmessage Args down up fs now m st))) /\
  snd (onmessage Args down up fs now m st) = Return tt.
Proof.
  intros Hp. unfold onmessage. destruct (setupComplete m).
  - split; [constructor | reflexivity].
  - rewrite bind_user_text, Hp. split.
    + apply sends_forEach. intros part [g c]. rewrite handle_part_eq.
      cbn [fst snd]. apply Forall_forall. intros e He.
      apply in_map_iff in He as [f [<- _]]. exact I.
    + apply forEach_returns. intros part [g c]. rewrite handle_part_eq.
      reflexivity.
Qed.

End ConnectionFacts.

Lemma run_keeps_accumulator_short_witness :
  (length (audioBuffer8k (snd active0)) < 160)%nat /\
  (length
     (audioBuffer8k
        (snd (fst (fst (run unit Decimator Doubler fs_demo
                          [UpstreamMessage "t0" (audio_message (ramp 1 700));
                           UpstreamMessage "t1" interruption_message;
                           ClientMessage_ev (audio_in (Some (ramp 1 30)))]
                          active0))))) < 160)%nat.
Proof.
  assert (length (audioBuffer8k (snd active0)) < 160)%nat as H
    by (cbn; lia).
  split; [exact H|].
  exact (run_keeps_accumulator_short unit Decimator Doubler fs_demo
           [UpstreamMessage "t0" (audio_message (ramp 1 700));
            UpstreamMessage "t1" interruption_message;
            ClientMessage_ev (audio_in (Some (ramp 1 30)))] active0 H).
Defined.

Lemma model_turn_sends_only_audio_witness :
  modelTurn_parts mixed_message =
    Some [{| inlineData := Some (ramp 1 600); part_text := None |}] /\
  Forall is_client_audio
    (snd (fst (onmessage unit Decimator Doubler fs_demo "t" mixed_message
                 active0))) /\
  snd (onmessage unit Decimator Doubler fs_demo "t" mixed_message active0) =
    Return tt.
Proof.
  split; [reflexivity|].
  exact (model_turn_sends_only_audio unit Decimator Doubler fs_demo "t"
           mixed_message
           [{| inlineData := Some (ramp 1 600); part_text := None |}]
           active0 eq_refl).
Defined.

Section DirectionFacts.

Variable Args : Type.
Variables down up : Converter.
Variable fs : FileSystem Args.

(** X7. Audio the client sends before the upstream session is open is
    thrown away, not queued: it reaches neither the converter nor, once the
    session opens, the upstream, which then receives the opening text
    only. *)
Theorem early_audio_is_dropped (g : Global down up) c audios s :
  session c = None ->
  run Args down up fs
    (map (fun a => ClientMessage_ev (audio_in a)) audios ++
     [ConnectSettled (Return s)]) (g, c) =
  ((g, {| sessionUuid := sessionUuid c; audioBuffer8k := audioBuffer8k c;
          session := Some s; audioFrames := audioFrames c |}),
   [session_sendRealtimeInput_text "Please start the conversation."], []).
Proof.
  intros Hs.
  assert (run Args down up fs
            (map (fun a => ClientMessage_ev (audio_in a)) audios) (g, c) =
          ((g, c), [], [])) as Hdrop.
  { induction audios as [|a tl IH]; [reflexivity|].
    cbn [map run handle on_client_message]. unfold bind at 1, get at 1.
    cbn [fst snd]. rewrite Hs.
    destruct a; cbn [ret]; rewrite IH; reflexivity. }
  rewrite run_app, Hdrop. cbn. reflexivity.
Qed.

(** X8. A message from the client never touches the downstream side: the
    accumulator, [audioFrames] and the downsampler are what they were,
    nothing is sent to the client, and the handler ends normally. *)
Theorem client_message_leaves_downstream_alone (cm : ClientIn) st :
  let r := handle Args down up fs (ClientMessage_ev cm) st in
  audioBuffer8k (snd (fst (fst r))) = audioBuffer8k (snd st) /\
  audioFrames (snd (fst (fst r))) = audioFrames (snd st) /\
  globalDownsampler (fst (fst (fst r))) = globalDownsampler (fst st) /\
  Forall not_to_client (snd (fst r)) /\
  snd r = Return tt.
Proof.
  destruct st as [g c]. cbv zeta. destruct cm as [uuid|a|].
  - cbn. repeat split; try reflexivity; repeat constructor.
  - destruct a as [b|]; cbn; [destruct (session c) as [s|]; cbn|].
    + unfold bind, convert8kTo16k, get. cbn.
      destruct (full up (globalUpsampler g) (Int16Array_view b)) as [u' out].
      cbn. repeat split; try reflexivity. repeat constructor.
    + repeat split; try reflexivity; repeat constructor.
    + repeat split; try reflexivity; repeat constructor.
  - cbn. repeat split; try reflexivity; repeat constructor.
Qed.

(** X9. A message from the upstream never touches the upstream side: the
    upsampler, the session handle and the session uuid are what they were,
    and all it sends are messages to the client and tool responses - no
    audio or text input to the session, no close of either socket, no
    file. *)
Theorem upstream_message_leaves_upstream_alone now
    (m : LiveServerMessage Args) st :
  let r := onmessage Args down up fs now m st in
  globalUpsampler (fst (fst (fst r))) = globalUpsampler (fst st) /\
  session (snd (fst (fst r))) = session (snd st) /\
  sessionUuid (snd (fst (fst r))) = sessionUuid (snd st) /\
  Forall is_reply (snd (fst r)).
Proof.
  cbv zeta.
  assert (sends is_reply (onmessage Args down up fs now m)) as Hsends.
  { unfold onmessage. destruct (setupComplete m); [apply sends_ret|].
    apply sends_bind.
    - intros st0. destruct (user_text_quiet Args down up now m st0) as [Ho _].
      rewrite Ho. constructor.
    - intros _. destruct (modelTurn_parts m) as [parts|].
      + apply sends_forEach. intros part [g c]. rewrite handle_part_eq.
        cbn [fst snd]. apply Forall_forall. intros e He.
        apply in_map_iff in He as [f [<- _]]. exact I.
      + destruct (toolCall_functionCalls m) as [fcs|].
        * apply sends_bind; [apply sends_get|]. intros st0.
          apply sends_bind; [apply sends_lift|]. intros rs.
          unfold on_session. apply sends_bind; [apply sends_get|].
          intros st1. destruct (session (snd st1)).
          -- apply sends_emit. exact I.
          -- apply sends_lift.
        * destruct (interrupted m); [|apply sends_ret].
          apply sends_bind; [apply sends_get|]. intros st0.
          apply sends_bind.
          -- unfold set_conn. apply sends_bind; [apply sends_get|].
             intros ?. apply sends_put.
          -- intros _. apply sends_emit. exact I. }
  assert (globalUpsampler (fst (fst (fst (onmessage Args down up fs now m st))))
            = globalUpsampler (fst st) /\
          session (snd (fst (fst (onmessage Args down up fs now m st))))
            = session (snd st) /\
          sessionUuid (snd (fst (fst (onmessage Args down up fs now m st))))
            = sessionUuid (snd st)) as Hstate.
  { apply (onmessage_keeps Args down up fs
             (fun s => globalUpsampler (fst s) = globalUpsampler (fst st) /\
                       session (snd s) = session (snd st) /\
                       sessionUuid (snd s) = sessionUuid (snd st))).
    - intros g c tr H. exact H.
    - intros g c H. exact H.
    - intros part [g c] H. rewrite handle_part_eq. exact H.
    - repeat split. }
  destruct Hstate as (H1 & H2 & H3).
  split; [exact H1|]. split; [exact H2|]. split; [exact H3|].
  apply Hsends.
Qed.

(** X10. After [init] and a successful open the upstream gets the opening
    text once; a client [audio] message is then converted and forwarded at
    once as a single buffer of two bytes per sample the upsampler
    delivered - nothing is accumulated or cut into frames on this path. *)
Theorem open_then_audio_is_forwarded (g : Global down up) uuid b :
  let r := run Args down up fs
             [ClientMessage_ev (init uuid);
              ConnectSettled (Return LiveSession);
              ClientMessage_ev (audio_in (Some b))]
             (g, handleClientConnection) in
  let upsampled := full up (globalUpsampler g) (Int16Array_view b) in
  snd (fst r) =
    [session_sendRealtimeInput_text "Please start the conversation.";
     session_sendRealtimeInput_audio (Buffer_from_Int16Array (snd upsampled))] /\
  snd r = [] /\
  globalUpsampler (fst (fst (fst r))) = fst upsampled /\
  audioBuffer8k (snd (fst (fst r))) = [] /\
  length (Buffer_from_Int16Array (snd upsampled)) =
    (2 * length (snd upsampled))%nat.
Proof.
  cbv zeta. cbn [run handle on_client_message initializeGeminiConnection].
  cbn. unfold bind, convert8kTo16k, get. cbn.
  destruct (full up (globalUpsampler g) (Int16Array_view b)) as [u' out].
  cbn. repeat split. apply Buffer_from_Int16Array_length.
Qed.

(** X11. A second [init] on a connection, with another, non-empty uuid,
    opens a second upstream session and forgets the first: when the client
    then goes away, one session is closed, not two, only the second uuid's
    transcript is written, and the first uuid's transcript stays in the
    process-wide map. *)
Theorem second_init_leaks_the_first (g : Global down up) a b s1 s2 :
  a <> b ->
  b <> EmptyString ->
  let r := run Args down up fs
             [ClientMessage_ev (init a); ConnectSettled (Return s1);
              ClientMessage_ev (init b); ConnectSettled (Return s2);
              ClientGone]
             (g, handleClientConnection) in
  snd (fst r) =
    [session_sendRealtimeInput_text "Please start the conversation.";
     session_sendRealtimeInput_text "Please start the conversation.";
     session_close; clientWs_close;
     fs_writeFile ("logs/transcript-" ++ b ++ ".txt") EmptyString] /\
  transcripts (fst (fst (fst r))) a = Some [] /\
  transcripts (fst (fst (fst r))) b = None.
Proof.
  intros Hab Hb. cbv zeta.
  assert (truthy (Some b) = Some b) as Htb
    by (destruct b; [contradiction | reflexivity]).
  apply String.eqb_neq in Hab.
  cbn [run handle on_client_message initializeGeminiConnection].
  unfold cleanup. cbn -[truthy]. rewrite Htb. cbn -[truthy].
  unfold Map_set, Map_delete. rewrite !String.eqb_refl. cbn -[truthy].
  unfold Map_delete, Map_set. rewrite !String.eqb_refl, Hab.
  repeat split.
Qed.

Lemma cleanup_effects (g : Global down up) c :
  snd (fst (cleanup down up (g, c))) =
  match session c with Some _ => [session_close] | None => [] end ++
  [clientWs_close] ++
  match truthy (sessionUuid c) with
  | Some uuid =>
      match transcripts g uuid with
      | Some finalTranscript =>
          [fs_writeFile ("logs/transcript-" ++ uuid ++ ".txt")
             (String.concat newline (map format_entry finalTranscript))]
      | None => []
      end
  | None => []
  end.
Proof.
  unfold cleanup, bind, get. cbn [fst snd].
  destruct (session c); cbn;
    (destruct (truthy (sessionUuid c)) as [uuid|]; cbn; [|reflexivity]);
    (destruct (transcripts g uuid); reflexivity).
Qed.

Lemma cleanup_state (g : Global down up) c :
  fst (fst (cleanup down up (g, c))) =
  (match truthy (sessionUuid c) with
   | Some uuid =>
       match transcripts g uuid with
       | Some _ =>
           Build_Global down up (globalDownsampler g) (globalUpsampler g)
                        (Map_delete (transcripts g) uuid)
       | None => g
       end
   | None => g
   end, c).
Proof.
  unfold cleanup, bind, get. cbn [fst snd].
  destruct (session c); cbn;
    (destruct (truthy (sessionUuid c)) as [uuid|]; cbn; [|reflexivity]);
    (destruct (transcripts g uuid); reflexivity).
Qed.


End DirectionFacts.

Lemma early_audio_is_dropped_witness :
  session handleClientConnection = None /\
  run unit Decimator Doubler fs_demo
    (map (fun a => ClientMessage_ev (audio_in a))
         [Some (ramp 1 80); None; Some (ramp 81 80)] ++
     [ConnectSettled (Return LiveSession)]) (global0, handleClientConnection) =
  ((global0,
    {| sessionUuid := sessionUuid handleClientConnection;
       audioBuffer8k := audioBuffer8k handleClientConnection;
       session := Some LiveSession;
       audioFrames := audioFrames handleClientConnection |}),
   [session_sendRealtimeInput_text "Please start the conversation."], []).
Proof.
  split; [reflexivity|].
  exact (early_audio_is_dropped unit Decimator Doubler fs_demo global0
           handleClientConnection
           [Some (ramp 1 80); None; Some (ramp 81 80)] LiveSession eq_refl).
Defined.

Lemma second_init_leaks_the_first_witness :
  "abc"%string <> "xyz"%string /\
  "xyz"%string <> EmptyString /\
  let r := run unit Decimator Doubler fs_demo
             [ClientMessage_ev (init "abc");
              ConnectSettled (Return LiveSession);
              ClientMessage_ev (init "xyz");
              ConnectSettled (Return LiveSession);
              ClientGone]
             (global0, handleClientConnection) in
  snd (fst r) =
    [session_sendRealtimeInput_text "Please start the conversation.";
     session_sendRealtimeInput_text "Please start the conversation.";
     session_close; clientWs_close;
     fs_writeFile ("logs/transcript-" ++ "xyz" ++ ".txt") EmptyString] /\
  transcripts (fst (fst (fst r))) "abc"%string = Some [] /\
  transcripts (fst (fst (fst r))) "xyz"%string = None.
Proof.
  assert ("abc"%string <> "xyz"%string) as H by discriminate.
  assert ("xyz"%string <> EmptyString) as H' by discriminate.
  split; [exact H|]. split; [exact H'|].
  exact (second_init_leaks_the_first unit Decimator Doubler fs_demo global0
           "abc" "xyz" LiveSession LiveSession H H').
Defined.

(* ===================================================================== *)
(** ** Transcripts and tools                                              *)
(* ===================================================================== *)

Section TranscriptFacts.

Variable Args : Type.
Variables down up : Converter.
Variable fs : FileSystem Args.

Lemma transcript_push_at tr u es e :
  tr u = Some es ->
  forall k, transcript_push tr (Some u) e k =
            if String.eqb k u then Some (es ++ [e]) else tr k.
Proof.
  intros H k. unfold transcript_push. rewrite H. reflexivity.
Qed.

Lemma forEach_parts_transcripts now u (T : Transcripts) parts :
  forall (g : Global down up) c es,
    sessionUuid c = Some u ->
    (forall k, transcripts g k = if String.eqb k u then Some es else T k) ->
    forall k,
      transcripts
        (fst (fst (fst (forEach down up parts (handle_part down up now)
                          (g, c))))) k =
      if String.eqb k u
      then Some (es ++ flat_map
                   (fun part =>
                      match truthy (part_text part) with
                      | Some t => [{| speaker := "AI"; entry_text := t;
                                      timestamp := now |}]
                      | None => []
                      end) parts)
      else T k.
Proof.
  induction parts as [|part tl IH]; intros g c es Hu Htr k.
  - cbn. rewrite app_nil_r. apply Htr.
  - cbn [forEach flat_map]. unfold bind. rewrite handle_part_eq. cbv zeta.
    set (g1 := Build_Global down up _ _ _).
    set (c1 := Build_Conn _ _ _ _).
    assert (sessionUuid c1 = Some u) as Hu1 by exact Hu.
    destruct (truthy (part_text part)) as [t|] eqn:Ht.
    + assert (forall k, transcripts g1 k =
                if String.eqb k u
                then Some ((es ++ [{| speaker := "AI"; entry_text := t;
                                      timestamp := now |}]))
                else T k) as Htr1.
      { intros k0. subst g1. cbn [transcripts]. rewrite Hu.
        rewrite (transcript_push_at (transcripts g) u es).
        - destruct (String.eqb k0 u) eqn:E; [reflexivity|].
          rewrite Htr, E. reflexivity.
        - rewrite Htr, String.eqb_refl. reflexivity. }
      specialize (IH g1 c1 _ Hu1 Htr1 k).
      destruct (forEach down up tl (handle_part down up now) (g1, c1))
        as [[st2 out2] r]. cbn [fst snd] in *.
      rewrite IH, <- app_assoc. reflexivity.
    + assert (forall k, transcripts g1 k =
                if String.eqb k u then Some es else T k) as Htr1.
      { intros k0. subst g1. cbn [transcripts]. apply Htr. }
      specialize (IH g1 c1 _ Hu1 Htr1 k).
      destruct (forEach down up tl (handle_part down up now) (g1, c1))
        as [[st2 out2] r]. cbn [fst snd] in *.
      rewrite IH. reflexivity.
Qed.

(** X13. One upstream message appends to the session's transcript the
    recognised user text (if not empty) and then the text of each part of
    the model turn (if not empty), in order, and changes the transcript of
    no other session. *)
Theorem transcript_grows_in_order now (m : LiveServerMessage Args) st u es :
  setupComplete m = false ->
  sessionUuid (snd st) = Some u ->
  transcripts (fst st) u = Some es ->
  forall k,
    transcripts (fst (fst (fst (onmessage Args down up fs now m st)))) k =
    if String.eqb k u then Some (es ++ spoken now m)
    else transcripts (fst st) k.
Proof.
  intros Hsc Hu Hes k. destruct st as [g c]. cbn [fst snd] in *.
  unfold onmessage. rewrite Hsc, bind_user_text, user_text_eq.
  set (g1 := Build_Global down up _ _ _).
  set (user := match truthy (text m) with
               | Some t => [{| speaker := "User"; entry_text := t;
                               timestamp := now |}]
               | None => []
               end).
  assert (forall k, transcripts g1 k =
            if String.eqb k u then Some (es ++ user)
            else transcripts g k) as Htr1.
  { intros k0. subst g1 user. cbn [transcripts].
    destruct (truthy (text m)) as [t|].
    - rewrite Hu. apply transcript_push_at. exact Hes.
    - rewrite app_nil_r. destruct (String.eqb k0 u) eqn:E; [|reflexivity].
      apply String.eqb_eq in E. subst k0. exact Hes. }
  unfold spoken. fold user.
  destruct (modelTurn_parts m) as [parts|].
  - rewrite (forEach_parts_transcripts now u (transcripts g) parts g1 c
               (es ++ user) Hu Htr1 k).
    rewrite app_assoc. reflexivity.
  - rewrite app_nil_r.
    destruct (toolCall_functionCalls m) as [fcs|].
    + unfold bind, get, lift, on_session. cbn [fst snd].
      destruct (tool_loop Args fs (sessionUuid c) (transcripts g1) fcs [])
        as [rs|e]; [|apply Htr1].
      cbn -[g1]. destruct (session c); apply Htr1.
    + destruct (interrupted m); cbn -[g1]; apply Htr1.
Qed.

(** X14. While a session with a non-empty uuid has entries, what the
    [get_transcript] tool answers is the heading followed by exactly the
    text that [cleanup] writes to the session's log file. (Under the empty
    uuid [cleanup] writes no file.) *)
Theorem transcript_tool_matches_log (st : State down up) u es (args : Args) :
  sessionUuid (snd st) = Some u ->
  u <> EmptyString ->
  transcripts (fst st) u = Some es ->
  es <> [] ->
  let content := String.concat newline (map format_entry es) in
  get_transcript_handler (Some u) args (transcripts (fst st)) =
    Return ("Here is the transcript of our conversation:" ++ newline ++
            content)%string /\
  In (fs_writeFile ("logs/transcript-" ++ u ++ ".txt") content)
     (snd (fst (cleanup down up st))).
Proof.
  intros Hu Hne0 Hes Hne. destruct st as [g c]. cbn [fst snd] in *. cbv zeta.
  split.
  - unfold get_transcript_handler. rewrite Hes.
    destruct es; [contradiction|reflexivity].
  - rewrite cleanup_effects, Hu.
    replace (truthy (Some u)) with (Some u)
      by (destruct u; [contradiction | reflexivity]).
    rewrite Hes. apply in_or_app. right. right. left. reflexivity.
Qed.

(** X15. Once [cleanup] has run, the transcript of a session with a
    non-empty uuid is gone: the [get_transcript] tool answers with its
    apology, whatever the transcript held. Under the empty uuid, which
    [cleanup] treats like no uuid, the transcript stays and the tool
    answers as it did before. *)
Theorem transcript_tool_after_cleanup (st : State down up) (args : Args) :
  let st1 := fst (fst (cleanup down up st)) in
  get_transcript_handler (sessionUuid (snd st1)) args
                         (transcripts (fst st1)) =
  match sessionUuid (snd st) with
  | Some EmptyString =>
      get_transcript_handler (Some EmptyString) args (transcripts (fst st))
  | _ =>
      Return "I'm sorry, I couldn't retrieve the transcript for this session."%string
  end.
Proof.
  destruct st as [g c]. cbv zeta. rewrite cleanup_state. cbn [fst snd].
  destruct (sessionUuid c) as [[|ch uuid]|]; cbn [truthy]; try reflexivity.
  unfold get_transcript_handler.
  destruct (transcripts g (String ch uuid)) as [es|] eqn:Ht.
  - cbn [transcripts]. unfold Map_delete. rewrite String.eqb_refl.
    reflexivity.
  - rewrite Ht. reflexivity.
Qed.

(** X16. When every call of a batch names a tool that resolves and whose
    handler answers, [onmessage] sends exactly one batch upstream, with one
    response per call, in call order, each carrying the id and the name of
    its call, and ends normally. *)
Theorem answered_batch_is_complete now (m : LiveServerMessage Args) st fcs :
  setupComplete m = false ->
  modelTurn_parts m = None ->
  toolCall_functionCalls m = Some fcs ->
  session (snd st) <> None ->
  let tr := transcripts (fst (fst (fst (user_text Args down up now m st)))) in
  Forall (fun fc =>
            exists h answer,
              getToolHandler Args fs (fc_name fc) = Return (Some h) /\
              h (sessionUuid (snd st)) (fc_args fc) tr = Return answer) fcs ->
  let r := onmessage Args down up fs now m st in
  snd r = Return tt /\
  exists functionResponses,
    snd (fst r) = [session_sendToolResponse functionResponses] /\
    length functionResponses = length fcs /\
    map (fun x => (fr_id x, fr_name x)) functionResponses =
    map (fun fc => (fc_id fc, fc_name fc)) fcs.
Proof.
  intros Hsc Hp Ht Hs tr Hall. cbv zeta.
  destruct st as [g c]. cbn [snd] in Hs, Hall |- *.
  assert (forall acc, exists rs,
            tool_loop Args fs (sessionUuid c) tr fcs acc = Return rs)
    as Hloop.
  { clear Ht. induction fcs as [|fc tl IH]; intros acc.
    - exists acc. reflexivity.
    - inversion Hall as [|? ? (h & answer & Hh & Ha) Htl]; subst.
      cbn [tool_loop]. rewrite Hh. cbn [Result_bind]. rewrite Ha.
      cbn [Result_bind]. apply IH. exact Htl. }
  destruct (Hloop []) as [rs Hrs].
  pose proof (tool_loop_ids Args fs _ _ _ _ _ Hrs) as Hids.
  cbn [map app] in Hids.
  unfold onmessage. rewrite Hsc, Hp, Ht, bind_user_text.
  subst tr. rewrite user_text_eq in *. cbn [fst snd transcripts] in *.
  unfold bind, get, lift, on_session. cbn [fst snd transcripts].
  rewrite Hrs. cbn.
  destruct (session c) as [s|]; [|contradiction].
  cbn. split; [reflexivity|]. exists rs. split; [reflexivity|].
  split; [|exact Hids].
  apply (f_equal (@length _)) in Hids. rewrite !length_map in Hids.
  exact Hids.
Qed.

(** X17. A tool that has a file in [avr_tools] is served from there,
    whether or not [tools] has a file of the same name. *)
Theorem avr_tools_shadow_tools name t :
  fs (path_join "avr_tools" (name ++ ".js")) = Some t ->
  exists h, getToolHandler Args fs name = Return (Some h) /\
            forall u a c, h u a c = handler t u a c.
Proof.
  intros Ht. unfold getToolHandler. cbn [find]. unfold existsSync at 1.
  rewrite Ht. unfold require. rewrite Ht. cbn [Result_bind].
  eexists. split; [reflexivity|]. reflexivity.
Qed.

End TranscriptFacts.

Section TranscriptToolFacts.

Variable Args : Type.
Variables down up : Converter.
Variable fs : FileSystem Args.

(** X18. A message that carries recognised user text and a call of the
    transcript tool is answered with a transcript that already ends with
    that text: the text is recorded before the tools run. *)
Theorem transcript_tool_sees_the_same_message now
    (m : LiveServerMessage Args) st u es t fc :
  fs (path_join "avr_tools" ("get_transcript" ++ ".js")) = None ->
  fs (path_join "tools" ("get_transcript" ++ ".js")) = Some get_transcript ->
  sessionUuid (snd st) = Some u ->
  session (snd st) <> None ->
  transcripts (fst st) u = Some es ->
  setupComplete m = false ->
  truthy (text m) = Some t ->
  modelTurn_parts m = None ->
  toolCall_functionCalls m = Some [fc] ->
  fc_name fc = "get_transcript"%string ->
  snd (fst (onmessage Args down up fs now m st)) =
  [session_sendToolResponse
     [{| fr_id := fc_id fc; fr_name := "get_transcript";
         fr_result :=
           ("Here is the transcript of our conversation:" ++ newline ++
            String.concat newline
              (map format_entry
                 (es ++ [{| speaker := "User"; entry_text := t;
                            timestamp := now |}])))%string |}]].
Proof.
  intros Havr Htools Hu Hs Hes Hsc Ht Hp Hc Hn. destruct st as [g c].
  cbn [fst snd] in *.
  unfold onmessage. rewrite Hsc, Hp, Hc, bind_user_text, user_text_eq.
  rewrite Ht. unfold bind, get, lift, on_session. cbn [fst snd transcripts].
  cbn [tool_loop]. rewrite Hn. unfold getToolHandler. cbn [find].
  unfold existsSync, require. rewrite Havr, Htools. rewrite Htools.
  cbn [Result_bind handler get_transcript]. unfold get_transcript_handler.
  rewrite Hu. rewrite (transcript_push_at (transcripts g) u es _ Hes).
  rewrite String.eqb_refl.
  destruct (es ++ [{| speaker := "User"; entry_text := t; timestamp := now |}])
    as [|e0 rest] eqn:Happ.
  { destruct es; discriminate Happ. }
  cbn. destruct (session c) as [s|]; [|contradiction]. reflexivity.
Qed.

End TranscriptToolFacts.

Lemma transcript_grows_in_order_witness :
  setupComplete spoken_message = false /\
  sessionUuid (snd talking0) = Some "abc"%string /\
  transcripts (fst talking0) "abc"%string =
    Some [{| speaker := "User"; entry_text := "hello"; timestamp := "t0" |}] /\
  forall k,
    transcripts
      (fst (fst (fst (onmessage unit Decimator Doubler fs_demo "t1"
                        spoken_message talking0)))) k =
    if String.eqb k "abc"
    then Some ([{| speaker := "User"; entry_text := "hello";
                   timestamp := "t0" |}] ++ spoken "t1" spoken_message)
    else transcripts (fst talking0) k.
Proof.
  split; [reflexivity|]. split; [reflexivity|]. split; [reflexivity|].
  exact (transcript_grows_in_order unit Decimator Doubler fs_demo "t1"
           spoken_message talking0 "abc" _ eq_refl eq_refl eq_refl).
Defined.

Lemma transcript_tool_matches_log_witness :
  sessionUuid (snd talking0) = Some "abc"%string /\
  "abc"%string <> EmptyString /\
  get_transcript_handler (Some "abc"%string) tt (transcripts (fst talking0)) =
    Return ("Here is the transcript of our conversation:" ++ newline ++
            "[t0] User: hello")%string /\
  In (fs_writeFile ("logs/transcript-" ++ "abc" ++ ".txt") "[t0] User: hello")
     (snd (fst (cleanup Decimator Doubler talking0))).
Proof.
  assert ("abc"%string <> EmptyString) as H by discriminate.
  split; [reflexivity|]. split; [exact H|].
  apply (transcript_tool_matches_log unit Decimator Doubler talking0 "abc"
           [{| speaker := "User"; entry_text := "hello"; timestamp := "t0" |}]
           tt eq_refl H eq_refl).
  discriminate.
Defined.

Lemma answered_batch_is_complete_witness :
  session (snd talking0) <> None /\
  let r := onmessage unit Decimator Doubler fs_transcript "t1" ask_transcript
             talking0 in
  snd r = Return tt /\
  exists functionResponses,
    snd (fst r) = [session_sendToolResponse functionResponses] /\
    length functionResponses = length [call "7" "get_transcript"] /\
    map (fun x => (fr_id x, fr_name x)) functionResponses =
    map (fun fc => (fc_id fc, fc_name fc)) [call "7" "get_transcript"].
Proof.
  assert (session (snd talking0) <> None) as Hs by discriminate.
  split; [exact Hs|].
  apply (answered_batch_is_complete unit Decimator Doubler fs_transcript "t1"
           ask_transcript talking0 [call "7" "get_transcript"]
           eq_refl eq_refl eq_refl Hs).
  repeat constructor. eexists. eexists. split; reflexivity.
Defined.

Lemma transcript_tool_sees_the_same_message_witness :
  snd (fst (onmessage unit Decimator Doubler fs_transcript "t1" ask_transcript
              talking0)) =
  [session_sendToolResponse
     [{| fr_id := "7"; fr_name := "get_transcript";
         fr_result :=
           ("Here is the transcript of our conversation:" ++ newline ++
            String.concat newline
              (map format_entry
                 ([{| speaker := "User"; entry_text := "hello";
                      timestamp := "t0" |}] ++
                  [{| speaker := "User"; entry_text := "read it back";
                      timestamp := "t1" |}])))%string |}]].
Proof.
  apply (transcript_tool_sees_the_same_message unit Decimator Doubler
           fs_transcript "t1" ask_transcript talking0 "abc"
           [{| speaker := "User"; entry_text := "hello"; timestamp := "t0" |}]
           "read it back" (call "7" "get_transcript"));
    try reflexivity.
  discriminate.
Defined.

(* ===================================================================== *)
(** ** The tool catalogue                                                 *)
(* ===================================================================== *)

Section CatalogueFacts.

Variable Schema : Type.
Variable empty_object : Schema.
Variable Args : Type.

Lemma in_drop_null {A} (x : A) l : In x (drop_null l) <-> In (Some x) l.
Proof.
  induction l as [|[y|] tl IH]; cbn.
  - tauto.
  - rewrite IH. split; intros [H|H]; auto; left; congruence.
  - rewrite IH. split; [auto | intros [H|H]; [discriminate|auto]].
Qed.

Lemma in_loadToolsFromDir (d : Disk Schema) dir decl :
  In decl (loadToolsFromDir Schema empty_object d dir) <->
  exists files file,
    readdirSync d dir = Some files /\ In file files /\
    declaration_of Schema empty_object d dir file = Some decl.
Proof.
  unfold loadToolsFromDir. destruct (readdirSync d dir) as [files|].
  - rewrite in_drop_null, in_map_iff. split.
    + intros (file & Hd & Hin). exists files, file. auto.
    + intros (files' & file & [= <-] & Hin & Hd). exists file. auto.
  - split; [intros [] | intros (? & ? & H & _); discriminate].
Qed.

Lemma declaration_of_name (d : Disk Schema) dir file decl :
  declaration_of Schema empty_object d dir file = Some decl ->
  exists tool, load d (path_join dir file) = Return tool /\
               decl_name decl = exp_name tool.
Proof.
  unfold declaration_of. destruct (load d (path_join dir file)) as [tool|e];
    [|discriminate].
  intros [= <-]. exists tool. split; reflexivity.
Qed.

(** X19. When every module that loads sits in a file named after the tool
    it exports and that file is there for [getToolHandler], every tool the
    catalogue advertises resolves: [getToolHandler] returns a handler for
    its name. *)
Theorem advertised_tools_resolve (d : Disk Schema) (fs : FileSystem Args) :
  (forall dir files file tool,
     In dir ["avr_tools"%string; "tools"%string] ->
     readdirSync d dir = Some files -> In file files ->
     load d (path_join dir file) = Return tool ->
     file = (exp_name tool ++ ".js")%string /\
     fs (path_join dir file) <> None) ->
  forall decl,
    In decl (loadTools Schema empty_object d) ->
    exists h, getToolHandler Args fs (decl_name decl) = Return (Some h).
Proof.
  intros Hconv decl Hin. unfold loadTools in Hin.
  assert (exists dir, In dir ["avr_tools"%string; "tools"%string] /\
                      fs (path_join dir (decl_name decl ++ ".js")) <> None)
    as (dir & Hdir & Hfs).
  { apply in_app_or in Hin as [Hin|Hin];
      apply in_loadToolsFromDir in Hin as (files & file & Hr & Hf & Hd);
      apply declaration_of_name in Hd as (tool & Hl & Hn);
      [exists "avr_tools"%string | exists "tools"%string];
      (split; [cbn; auto|]);
      (edestruct Hconv as [Hfile Hthere]; [| exact Hr | exact Hf | exact Hl |];
       [cbn; auto|]);
      rewrite Hn, <- Hfile; exact Hthere. }
  unfold getToolHandler. cbn [find]. unfold existsSync.
  destruct (fs (path_join "avr_tools" (decl_name decl ++ ".js"))) as [t|] eqn:Ha.
  - unfold require. rewrite Ha. cbn. eexists. reflexivity.
  - destruct (fs (path_join "tools" (decl_name decl ++ ".js"))) as [t|] eqn:Hb.
    + unfold require. rewrite Hb. cbn. eexists. reflexivity.
    + exfalso. destruct Hdir as [<-|[<-|[]]]; contradiction.
Qed.

(** X20. The catalogue advertises the name a module exports, the resolver
    looks for a file of that name: a module in [tools] whose exported name
    has no file of its own is advertised to the upstream session, and a
    call of it makes [getToolHandler] throw. *)
Theorem misnamed_tool_is_advertised_but_unresolvable
    (d : Disk Schema) (fs : FileSystem Args) files file tool :
  readdirSync d "tools" = Some files ->
  In file files ->
  load d (path_join "tools" file) = Return tool ->
  fs (path_join "avr_tools" (exp_name tool ++ ".js")) = None ->
  fs (path_join "tools" (exp_name tool ++ ".js")) = None ->
  (exists decl, In decl (loadTools Schema empty_object d) /\
                decl_name decl = exp_name tool) /\
  getToolHandler Args fs (exp_name tool) =
  Throw ("Tool " ++ dquote ++ exp_name tool ++ dquote ++
         " not found in any available directory").
Proof.
  intros Hr Hin Hl Ha Hb. split.
  - destruct (declaration_of Schema empty_object d "tools" file) as [decl|]
      eqn:Hd.
    + exists decl. split.
      * unfold loadTools. apply in_or_app. right.
        apply in_loadToolsFromDir. exists files, file. auto.
      * unfold declaration_of in Hd. rewrite Hl in Hd.
        injection Hd as <-. reflexivity.
    + unfold declaration_of in Hd. rewrite Hl in Hd. discriminate.
  - apply getToolHandler_missing; assumption.
Qed.

(** X21. A module that fails to load is left out of the catalogue and costs
    nothing else: the catalogue of a directory is the one it would have
    without that file. A directory that does not exist gives no entry. *)
Theorem failing_module_is_skipped (d : Disk Schema) dir before file after e :
  load d (path_join dir file) = Throw e ->
  drop_null (map (declaration_of Schema empty_object d dir)
                 (before ++ file :: after)) =
  drop_null (map (declaration_of Schema empty_object d dir)
                 (before ++ after)) /\
  (readdirSync d dir = None ->
   loadToolsFromDir Schema empty_object d dir = []).
Proof.
  intros Hl. split.
  - induction before as [|x tl IH]; cbn [app map drop_null].
    + unfold declaration_of at 1. rewrite Hl. reflexivity.
    + destruct (declaration_of Schema empty_object d dir x);
        rewrite IH; reflexivity.
  - intros Hr. unfold loadToolsFromDir. rewrite Hr. reflexivity.
Qed.

End CatalogueFacts.

Lemma avr_tools_shadow_tools_witness :
  (fun p => if String.eqb p "avr_tools/get_time.js"
            then Some (Build_Tool unit "get_time"
                         (fun _ _ _ => Return "From avr_tools."%string))
            else fs_demo p) (path_join "avr_tools" ("get_time" ++ ".js")) =
    Some (Build_Tool unit "get_time"
            (fun _ _ _ => Return "From avr_tools."%string)) /\
  exists h,
    getToolHandler unit
      (fun p => if String.eqb p "avr_tools/get_time.js"
                then Some (Build_Tool unit "get_time"
                             (fun _ _ _ => Return "From avr_tools."%string))
                else fs_demo p) "get_time" = Return (Some h) /\
    forall u a c, h u a c = Return "From avr_tools."%string.
Proof.
  split; [reflexivity|].
  exact (avr_tools_shadow_tools unit
           (fun p => if String.eqb p "avr_tools/get_time.js"
                     then Some (Build_Tool unit "get_time"
                                  (fun _ _ _ => Return "From avr_tools."%string))
                     else fs_demo p) "get_time"
           (Build_Tool unit "get_time"
              (fun _ _ _ => Return "From avr_tools."%string)) eq_refl).
Defined.

Lemma advertised_tools_resolve_witness :
  (forall dir files file tool,
     In dir ["avr_tools"%string; "tools"%string] ->
     readdirSync disk_named dir = Some files -> In file files ->
     load disk_named (path_join dir file) = Return tool ->
     file = (exp_name tool ++ ".js")%string /\
     fs_demo (path_join dir file) <> None) /\
  forall decl,
    In decl (loadTools unit tt disk_named) ->
    exists h, getToolHandler unit fs_demo (decl_name decl) = Return (Some h).
Proof.
  assert (forall dir files file tool,
            In dir ["avr_tools"%string; "tools"%string] ->
            readdirSync disk_named dir = Some files -> In file files ->
            load disk_named (path_join dir file) = Return tool ->
            file = (exp_name tool ++ ".js")%string /\
            fs_demo (path_join dir file) <> None) as H.
  { intros dir files file tool [<-|[<-|[]]] Hr Hin Hl.
    - discriminate Hr.
    - cbn in Hr. injection Hr as <-.
      destruct Hin as [<-|[<-|[]]]; cbn in Hl; injection Hl as <-;
        (split; [reflexivity | discriminate]). }
  split; [exact H|].
  exact (advertised_tools_resolve unit tt unit disk_named fs_demo H).
Defined.

Lemma misnamed_tool_is_advertised_but_unresolvable_witness :
  (exists decl, In decl (loadTools unit tt disk_demo) /\
                decl_name decl = "nickname"%string) /\
  getToolHandler unit fs_demo "nickname" =
  Throw ("Tool " ++ dquote ++ "nickname" ++ dquote ++
         " not found in any available directory").
Proof.
  apply (misnamed_tool_is_advertised_but_unresolvable unit tt unit disk_demo
           fs_demo ["get_time.js"; "broken.js"; "alias.js"]%string
           "alias.js"
           {| exp_name := "nickname"; exp_description := None;
              exp_input_schema := Some tt |});
    try reflexivity.
  cbn. auto.
Defined.

Lemma failing_module_is_skipped_witness :
  drop_null (map (declaration_of unit tt disk_demo "tools")
                 (["get_time.js"%string] ++ "broken.js"%string ::
                  ["alias.js"%string])) =
  drop_null (map (declaration_of unit tt disk_demo "tools")
                 (["get_time.js"%string] ++ ["alias.js"%string])) /\
  (readdirSync disk_demo "tools" = None ->
   loadToolsFromDir unit tt disk_demo "tools" = []).
Proof.
  apply (failing_module_is_skipped unit tt disk_demo "tools"
           ["get_time.js"%string] "broken.js" ["alias.js"%string]
           "SyntaxError").
  reflexivity.
Defined.

(* ===================================================================== *)
(** ** The configuration of the upstream session                          *)
(* ===================================================================== *)

(** X23. A source that is set but cannot be read does not pass the turn to
    the next source nor to the friendly default: when the URL cannot be
    fetched (whether or not a file is set too), or the file cannot be read,
    the session is opened with "You are a helpful assistant.". *)
Theorem unreadable_source_gives_neutral_instruction {Decl : Type} env
    axios_get readFile (tools : Result (list Decl)) :
  truthy (GEMINI_INSTRUCTIONS env) = None ->
  (exists url e, truthy (GEMINI_URL_INSTRUCTIONS env) = Some url /\
                 axios_get url = Throw e) \/
  (truthy (GEMINI_URL_INSTRUCTIONS env) = None /\
   exists file e, truthy (GEMINI_FILE_INSTRUCTIONS env) = Some file /\
                  readFile file = Throw e) ->
  systemInstruction (connectToGeminiSdk env axios_get readFile tools) =
  Some "You are a helpful assistant."%string.
Proof.
  intros Hi [(url & e & Hu & Ha) | (Hu & file & e & Hf & Hr)];
    unfold connectToGeminiSdk; cbn; rewrite Hi, Hu.
  - rewrite Ha. reflexivity.
  - rewrite Hf, Hr. reflexivity.
Qed.

Lemma unreadable_source_gives_neutral_instruction_witness :
  let env := {| GEMINI_MODEL := None; GEMINI_INSTRUCTIONS := Some EmptyString;
                GEMINI_URL_INSTRUCTIONS := Some "http://cfg/prompt"%string;
                GEMINI_FILE_INSTRUCTIONS := Some "prompt.txt"%string;
                GEMINI_API_KEY := None |} in
  truthy (GEMINI_INSTRUCTIONS env) = None /\
  systemInstruction
    (connectToGeminiSdk (Decl := unit) env
       (fun _ => Throw "ECONNREFUSED"%string)
       (fun _ => Return "Be brief."%string) (Return [])) =
  Some "You are a helpful assistant."%string.
Proof.
  cbv zeta. split; [reflexivity|].
  apply (unreadable_source_gives_neutral_instruction (Decl := unit)
           {| GEMINI_MODEL := None; GEMINI_INSTRUCTIONS := Some EmptyString;
              GEMINI_URL_INSTRUCTIONS := Some "http://cfg/prompt"%string;
              GEMINI_FILE_INSTRUCTIONS := Some "prompt.txt"%string;
              GEMINI_API_KEY := None |}
           (fun _ => Throw "ECONNREFUSED"%string)
           (fun _ => Return "Be brief."%string) (Return []) eq_refl).
  left. exists "http://cfg/prompt"%string, "ECONNREFUSED"%string.
  split; reflexivity.
Defined.

(* ===================================================================== *)
(** ** The archive of audio chunks                                        *)
(* ===================================================================== *)

Module ArchiveFacts.
Import Archive.

Lemma length_append_string a b :
  String.length (a ++ b) = (String.length a + String.length b)%nat.
Proof. induction a as [|c a IH]; cbn; [reflexivity | rewrite IH; reflexivity]. Qed.

Lemma append_inj_r a : forall b s, (a ++ s = b ++ s)%string -> a = b.
Proof.
  induction a as [|c a IH]; intros [|c' b] s H.
  - reflexivity.
  - apply (f_equal String.length) in H. cbn in H.
    rewrite length_append_string in H. lia.
  - apply (f_equal String.length) in H. cbn in H.
    rewrite length_append_string in H. lia.
  - cbn in H. injection H as -> H. f_equal. apply (IH b s H).
Qed.

Lemma last_ascii_append a b :
  b <> EmptyString -> last_ascii (a ++ b) = last_ascii b.
Proof.
  intros Hb. induction a as [|c a IH]; [reflexivity|].
  cbn [append last_ascii]. rewrite IH.
  destruct (a ++ b)%string eqn:E; [|reflexivity].
  destruct a; cbn in E; [contradiction | discriminate].
Qed.

Lemma handleKey_inj u u' t t' :
  In t ["user"%string; "ai"%string] ->
  In t' ["user"%string; "ai"%string] ->
  handleKey u t = handleKey u' t' ->
  u = u' /\ t = t'.
Proof.
  unfold handleKey.
  intros [<-|[<-|[]]] [<-|[<-|[]]] H.
  - split; [|reflexivity]. apply (append_inj_r u u' _ H).
  - apply (f_equal last_ascii) in H.
    rewrite !last_ascii_append in H by discriminate. discriminate H.
  - apply (f_equal last_ascii) in H.
    rewrite !last_ascii_append in H by discriminate. discriminate H.
  - split; [|reflexivity]. apply (append_inj_r u u' _ H).
Qed.

(** X24. The two streams of a session, and the streams of different
    sessions, never share a file handle: the handle keys of the [user] and
    [ai] streams of any sessions are equal only for the same session and
    the same stream. *)
Theorem handle_keys_are_distinct u u' t t' :
  In t ["user"%string; "ai"%string] ->
  In t' ["user"%string; "ai"%string] ->
  handleKey u t = handleKey u' t' ->
  u = u' /\ t = t'.
Proof. apply handleKey_inj. Qed.

Lemma handle_keys_are_distinct_witness :
  In "user"%string ["user"%string; "ai"%string] /\
  handleKey "abc" "user" = handleKey "abc" "user" /\
  "abc"%string = "abc"%string /\ "user"%string = "user"%string.
Proof.
  assert (In "user"%string ["user"%string; "ai"%string]) as H by (cbn; auto).
  split; [exact H|]. split; [reflexivity|].
  exact (handle_keys_are_distinct "abc" "abc" "user" "user" H H eq_refl).
Defined.

Lemma opened_app a b : opened (a ++ b) = opened a ++ opened b.
Proof. unfold opened. apply flat_map_app. Qed.

Lemma written_app a b : written (a ++ b) = written a ++ written b.
Proof. unfold written. apply flat_map_app. Qed.

Lemma Forall_replace_nth {A} (P : A -> Prop) x : forall l i,
  Forall P l -> P x -> Forall P (replace_nth l i x).
Proof.
  induction l as [|y l IH]; intros i Hl Hx; [constructor|].
  inversion Hl; subst.
  destruct i; cbn; constructor; auto.
Qed.

Lemma Forall_nth_error {A} (P : A -> Prop) l i x :
  Forall P l -> nth_error l i = Some x -> P x.
Proof.
  intros Hl Hn. rewrite Forall_forall in Hl.
  apply Hl. apply (nth_error_In _ _ Hn).
Qed.

Lemma nth_error_snoc {A} (l : list A) x :
  nth_error (l ++ [x]) (length l) = Some x.
Proof. induction l; cbn; auto. Qed.

Lemma replace_nth_snoc {A} (l : list A) x y :
  replace_nth (l ++ [x]) (length l) y = l ++ [y].
Proof. induction l as [|z l IH]; cbn; [reflexivity | rewrite IH; reflexivity]. Qed.

(** One event, when the handle of the stream is in the map and no call
    waits for an [open]. *)
Lemma step_with_handle join dir bot k p ev (handles : Handles) pool :
  handles k = Some p ->
  Forall (no_open_pending k) pool ->
  of_stream k ev ->
  let r := archive_step join dir bot ev (handles, pool) in
  fst (fst r) = handles /\
  Forall (no_open_pending k) (snd (fst r)) /\
  opened (snd r) = [] /\
  Forall (fun w => fst w = p) (written (snd r)).
Proof.
  intros Hh Hpool Hev. cbv zeta.
  destruct ev as [today type uuid chunk | i rejection].
  - cbn in Hev. cbn. split; [reflexivity|]. split; [|split; [reflexivity|constructor]].
    apply Forall_app. split; [exact Hpool|].
    constructor; [exact Hev | constructor].
  - cbn [archive_step fst snd].
    destruct (nth_error pool i) as [[c|]|] eqn:Hn;
      [|cbn; repeat split; auto; constructor
       |cbn; repeat split; auto; constructor].
    pose proof (Forall_nth_error _ _ _ _ Hpool Hn) as Hc.
    destruct rejection as [e|].
    + cbn. split; [reflexivity|]. split; [|split; [reflexivity|constructor]].
      apply Forall_replace_nth; [exact Hpool | exact I].
    + destruct c as [f k' c | f k' c | ]; cbn in Hc.
      * subst k'. cbn [resume]. rewrite Hh. cbn.
        split; [reflexivity|]. split; [|split; [reflexivity|]].
        -- apply Forall_replace_nth; [exact Hpool | exact I].
        -- constructor; [reflexivity | constructor].
      * contradiction.
      * cbn. split; [reflexivity|]. split; [|split; [reflexivity|constructor]].
        apply Forall_replace_nth; [exact Hpool | exact I].
Qed.

Lemma run_with_handle join dir bot k p evs : forall (handles : Handles) pool,
  handles k = Some p ->
  Forall (no_open_pending k) pool ->
  Forall (of_stream k) evs ->
  let r := archive_run join dir bot evs (handles, pool) in
  fst (fst r) = handles /\
  opened (snd r) = [] /\
  Forall (fun w => fst w = p) (written (snd r)).
Proof.
  induction evs as [|ev rest IH]; intros handles pool Hh Hpool Hevs; cbv zeta.
  - cbn. repeat split; auto.
  - inversion Hevs as [|? ? Hev Hrest]; subst.
    cbn [archive_run].
    destruct (step_with_handle join dir bot k p ev handles pool Hh Hpool Hev)
      as (H1 & H2 & H3 & H4).
    destruct (archive_step join dir bot ev (handles, pool))
      as [[handles1 pool1] out1].
    cbn [fst snd] in H1, H2, H3, H4. subst handles1.
    destruct (IH handles pool1 Hh H2 Hrest) as (I1 & I2 & I3).
    destruct (archive_run join dir bot rest (handles, pool1))
      as [[handles2 pool2] out2].
    cbn [fst snd] in *. cbn [fst snd].
    rewrite opened_app, written_app, H3, I2.
    split; [exact I1|]. split; [reflexivity|].
    apply Forall_app. split; assumption.
Qed.

(** X25. A stream stays on the file it was first opened on, however the
    calls that follow interleave. When the first chunk of a stream has got
    through its [mkdir] and its [open] before anything else happens, then
    whatever comes after - further chunks of the stream, on the same or a
    later day, and the I/O of any call settling in any order, with or
    without an error - opens no other file: the one file opened is that of
    the first chunk's day, every chunk that is written goes to it, and the
    map holds it under the stream's key. *)
Theorem stream_stays_on_first_file join dir bot type uuid today chunk
    (handles : Handles) pool evs :
  handles (handleKey uuid type) = None ->
  Forall (no_open_pending (handleKey uuid type)) pool ->
  Forall (of_stream (handleKey uuid type)) evs ->
  let first := file_of join dir bot today type uuid in
  let r := archive_run join dir bot
             (Call today type uuid chunk
              :: Settle (length pool) None :: Settle (length pool) None
              :: evs)
             (handles, pool) in
  opened (snd r) = [first] /\
  (exists others, written (snd r) = (first, chunk) :: others /\
                  Forall (fun w => fst w = first) others) /\
  fst (fst r) (handleKey uuid type) = Some first.
Proof.
  intros Hh Hpool Hevs. cbv zeta.
  set (k := handleKey uuid type) in *.
  set (first := file_of join dir bot today type uuid).
  cbn [archive_run archive_step saveAudioChunk fst snd].
  rewrite nth_error_snoc. cbn [resume]. fold k. rewrite Hh.
  cbn [fst snd]. rewrite replace_nth_snoc, nth_error_snoc.
  cbn [resume fst snd]. rewrite replace_nth_snoc. fold first.
  assert (Handles_set handles k first k = Some first) as Hset.
  { unfold Handles_set. rewrite String.eqb_refl. reflexivity. }
  assert (Forall (no_open_pending k) (pool ++ [Some AwaitWrite])) as Hpool'.
  { apply Forall_app. split; [exact Hpool|]. constructor; [exact I|constructor]. }
  destruct (run_with_handle join dir bot k first evs _ _ Hset Hpool' Hevs)
    as (I1 & I2 & I3).
  destruct (archive_run join dir bot evs
              (Handles_set handles k first, pool ++ [Some AwaitWrite]))
    as [[handles2 pool2] out2].
  cbn [fst snd] in *. subst handles2.
  cbn [app opened written flat_map].
  fold (opened out2). fold (written out2). rewrite I2.
  split; [reflexivity|]. split; [|exact Hset].
  exists (written out2). split; [reflexivity | exact I3].
Qed.

Lemma stream_stays_on_first_file_witness :
  (fun _ : string => @None string) (handleKey "abc" "ai") = None /\
  let evs := [Call "2025-12-25" "ai" "abc" [3; 4]%Z; Settle 1 None;
              Settle 0 None; Settle 1 None] in
  let first := file_of slashes "saved_audios" "gemini_bot" "2025-12-24"
                 "ai" "abc" in
  let r := archive_run slashes "saved_audios" "gemini_bot"
             (Call "2025-12-24" "ai" "abc" [1; 2]%Z
              :: Settle 0 None :: Settle 0 None :: evs)
             (fun _ => None, []) in
  opened (snd r) = [first] /\
  (exists others, written (snd r) = (first, [1; 2]%Z) :: others /\
                  Forall (fun w => fst w = first) others) /\
  fst (fst r) (handleKey "abc" "ai") = Some first.
Proof.
  split; [reflexivity|].
  apply (stream_stays_on_first_file slashes "saved_audios" "gemini_bot" "ai"
           "abc" "2025-12-24" [1; 2]%Z (fun _ => None) []
           [Call "2025-12-25" "ai" "abc" [3; 4]%Z; Settle 1 None;
            Settle 0 None; Settle 1 None] eq_refl).
  - constructor.
  - repeat constructor.
Defined.



(** X26. Closing a session's audio handles removes both of its keys, closes
    exactly the files that were open for it, and leaves the handles of
    every other session where they are. *)
Theorem close_handles_spares_other_sessions u handles :
  let r := close_handles u handles in
  fst r (handleKey u "user") = None /\
  fst r (handleKey u "ai") = None /\
  (forall u' t, u' <> u -> In t ["user"%string; "ai"%string] ->
     fst r (handleKey u' t) = handles (handleKey u' t)) /\
  snd r =
    match handles (handleKey u "user") with
    | Some f => [fh_close f]
    | None => []
    end ++
    match handles (handleKey u "ai") with
    | Some f => [fh_close f]
    | None => []
    end.
Proof.
  assert (String.eqb (handleKey u "ai") (handleKey u "user") = false) as Hau.
  { apply String.eqb_neq. intros H.
    apply (handleKey_inj u u "ai" "user") in H;
      [destruct H; discriminate | cbn; auto | cbn; auto]. }
  assert (String.eqb (handleKey u "user") (handleKey u "ai") = false) as Hua
    by (rewrite String.eqb_sym; exact Hau).
  assert (forall u' t, u' <> u -> In t ["user"%string; "ai"%string] ->
            forall t0, In t0 ["user"%string; "ai"%string] ->
            String.eqb (handleKey u' t) (handleKey u t0) = false) as Hother.
  { intros u' t Hne Ht t0 Ht0. apply String.eqb_neq. intros H.
    apply handleKey_inj in H; [|exact Ht|exact Ht0].
    destruct H; contradiction. }
  assert (forall u' t, u' <> u -> In t ["user"%string; "ai"%string] ->
            String.eqb (handleKey u' t) (handleKey u "user") = false /\
            String.eqb (handleKey u' t) (handleKey u "ai") = false) as Hboth.
  { intros u' t Hne Ht. split; apply Hother; cbn; auto. }
  cbv zeta.
  destruct (handles (handleKey u "user")) as [f1|] eqn:H1;
    destruct (handles (handleKey u "ai")) as [f2|] eqn:H2;
    unfold close_handles, Handles_delete; rewrite ?H1; cbn [fst snd app];
    rewrite ?Hau, ?H2; cbn [fst snd app];
    rewrite ?String.eqb_refl, ?Hua, ?Hau, ?H1, ?H2;
    (split; [reflexivity|]; split; [reflexivity|]; split; [|reflexivity]);
    intros u' t Hne Ht; destruct (Hboth u' t Hne Ht) as [E1 E2];
    rewrite ?E1, ?E2; reflexivity.
Qed.

End ArchiveFacts.

(* ===================================================================== *)
(** ** The replies of the calendar functions                              *)
(* ===================================================================== *)

Module CalendarReplyFacts.
Import Calendar CalendarReply.

Lemma checkAvailability_parses date time dur id id' req :
  checkAvailability date time dur id = Some req ->
  exists req', checkAvailability date time dur id' = Some req'.
Proof.
  unfold checkAvailability.
  destruct (field "-" date 0), (field "-" date 1), (field "-" date 2),
           (field ":" time 0), (field ":" time 1); try discriminate.
  intros _. eexists. reflexivity.
Qed.

(** X27. The slot is reported as taken only when the free/busy answer lists
    the primary calendar with at least one busy period; when the answer
    does not list the calendar at all, or lists it with no busy period,
    the slot is reported as available. *)
Theorem availability_follows_the_busy_list svc date time dur items cal req
    answer :
  getAuthorizedClient svc = true ->
  calendarList_list svc = Return items ->
  find primary items = Some cal ->
  checkAvailability date time dur (entry_id cal) = Some req ->
  freebusy_query svc req = Return answer ->
  checkAvailability_reply svc date time dur =
  Some (Return (slot_text date time dur ++
                match answer with
                | Some (_ :: _) => "NOT available."
                | _ => "available."
                end)%string).
Proof.
  intros Ha Hl Hp Hreq Hq. unfold checkAvailability_reply.
  rewrite Ha. cbn [negb].
  destruct (checkAvailability_parses _ _ _ _ EmptyString _ Hreq) as [r0 Hr0].
  rewrite Hr0, Hl, Hp, Hreq, Hq.
  destruct answer as [[|p l]|]; reflexivity.
Qed.

Lemma availability_follows_the_busy_list_witness :
  let svc :=
    {| getAuthorizedClient := true;
       calendarList_list :=
         Return [{| entry_id := "holidays"; primary := false |};
                 {| entry_id := "me@example.org"; primary := true |}];
       freebusy_query := fun _ => Return None;
       events_insert := fun _ _ => Throw "unused"%string |} in
  checkAvailability_reply svc "2025-12-24" "09:00" 30 =
  Some (Return (slot_text "2025-12-24" "09:00" 30 ++ "available.")%string).
Proof.
  cbv zeta.
  apply (availability_follows_the_busy_list _ "2025-12-24" "09:00" 30
           [{| entry_id := "holidays"; primary := false |};
            {| entry_id := "me@example.org"; primary := true |}]
           {| entry_id := "me@example.org"; primary := true |}
           {| timeMin := "2025-12-24T08:00:00Z";
              timeMax := "2025-12-24T08:30:00Z";
              fb_timeZone := "Europe/Amsterdam";
              items := ["me@example.org"%string] |} None);
    reflexivity.
Defined.

(** X28. For arguments whose fields are numbers, the two calendar
    functions reject only when listing the calendars rejects, and then with that error: a failing free/busy query or a
    failing insertion comes back as text, never as an exception. *)
Theorem only_the_calendar_list_rejects svc e :
  (forall date time dur,
     checkAvailability_reply svc date time dur = Some (Throw e) ->
     calendarList_list svc = Throw e) /\
  (forall client_name client_email date time dur purpose,
     bookAppointment_reply svc client_name client_email date time dur purpose
       = Some (Throw e) ->
     calendarList_list svc = Throw e).
Proof.
  split.
  - intros date time dur. unfold checkAvailability_reply.
    destruct (getAuthorizedClient svc); cbn [negb]; [|discriminate].
    destruct (checkAvailability date time dur EmptyString); [|discriminate].
    destruct (calendarList_list svc) as [items|e']; [|congruence].
    destruct (find primary items) as [cal|]; [|discriminate].
    destruct (checkAvailability date time dur (entry_id cal)) as [req|];
      [|discriminate].
    destruct (freebusy_query svc req) as [[[|p l]|]|e']; discriminate.
  - intros client_name client_email date time dur purpose.
    unfold bookAppointment_reply.
    destruct (getAuthorizedClient svc); cbn [negb]; [|discriminate].
    destruct (bookAppointment client_name client_email date time dur purpose)
      as [event|]; [|discriminate].
    destruct (calendarList_list svc) as [items|e']; [|congruence].
    destruct (find primary items) as [cal|]; [|discriminate].
    destruct (events_insert svc (entry_id cal) event); discriminate.
Qed.

(** Two-digit fields, by enumeration. *)
Lemma two_digit_time_wf h m :
  0 <= h <= 23 -> 0 <= m <= 59 ->
  iso8601_time_wf (padStart2 (toString h) ++ ":" ++ padStart2 (toString m) ++
                   ":00Z") = true.
Proof.
  intros Hh Hm.
  assert (forallb (fun hn =>
            forallb (fun mn =>
              iso8601_time_wf
                (padStart2 (toString (Z.of_nat hn)) ++ ":" ++
                 padStart2 (toString (Z.of_nat mn)) ++ ":00Z"))
              (seq 0 60)) (seq 0 24) = true) as Hall
    by (vm_compute; reflexivity).
  rewrite forallb_forall in Hall.
  assert (In (Z.to_nat h) (seq 0 24)) as Hih by (apply in_seq; lia).
  specialize (Hall (Z.to_nat h) Hih).
  rewrite forallb_forall in Hall.
  assert (In (Z.to_nat m) (seq 0 60)) as Him by (apply in_seq; lia).
  specialize (Hall (Z.to_nat m) Him).
  rewrite !Z2Nat.id in Hall by lia. exact Hall.
Qed.

(** X29. For a start hour between 1 and 24, a minute between 0 and 59 and
    a duration that ends before 01:00 local of the next day, both timestamps of the request
    are well-formed ISO 8601 times (two-digit hour up to 23, two-digit
    minute). *)
Theorem in_range_times_give_well_formed_timestamps date time dur id
    year month day hour minute :
  field "-" date 0 = Some year ->
  field "-" date 1 = Some month ->
  field "-" date 2 = Some day ->
  field ":" time 0 = Some hour ->
  field ":" time 1 = Some minute ->
  1 <= hour <= 24 ->
  0 <= minute <= 59 ->
  0 <= dur ->
  60 * hour + minute + dur < 1500 ->
  exists req,
    checkAvailability date time dur id = Some req /\
    iso8601_wf (timeMin req) = true /\
    iso8601_wf (timeMax req) = true.
Proof.
  intros Hy Hmo Hd Hh Hmi Hhour Hmin Hdur Hend.
  unfold checkAvailability. rewrite Hy, Hmo, Hd, Hh, Hmi. cbv zeta.
  eexists. split; [reflexivity|]. cbn [timeMin timeMax].
  pose proof (CalendarFacts.plain_toString year) as Py.
  pose proof (CalendarFacts.plain_padStart2 _
                (CalendarFacts.plain_toString month)) as Pm.
  pose proof (CalendarFacts.plain_padStart2 _
                (CalendarFacts.plain_toString day)) as Pd.
  pose proof (Z.div_mod (minute + dur) 60 ltac:(lia)) as Hdm.
  pose proof (Z.mod_pos_bound (minute + dur) 60 ltac:(lia)) as Hmod.
  assert (0 <= (minute + dur) / 60) as Hq by (apply Z.div_pos; lia).
  assert (Z.rem (minute + dur) 60 = (minute + dur) mod 60) as Hrem
    by (apply Z.rem_mod_nonneg; lia).
  split.
  - unfold iso8601_wf.
    destruct (CalendarFacts.hour_field_template
                (toString year) (padStart2 (toString month))
                (padStart2 (toString day)) (padStart2 (toString (hour - 1)))
                (padStart2 (toString minute) ++ ":00Z") Py Pm Pd
                (CalendarFacts.plain_padStart2 _
                   (CalendarFacts.plain_toString _))) as [Ha _].
    rewrite Ha. apply two_digit_time_wf; lia.
  - unfold iso8601_wf.
    destruct (CalendarFacts.hour_field_template
                (toString year) (padStart2 (toString month))
                (padStart2 (toString day))
                (padStart2 (toString (hour + (minute + dur) / 60 - 1)))
                (padStart2 (toString (Z.rem (minute + dur) 60)) ++ ":00Z")
                Py Pm Pd
                (CalendarFacts.plain_padStart2 _
                   (CalendarFacts.plain_toString _))) as [Ha _].
    rewrite Ha. apply two_digit_time_wf; lia.
Qed.

Lemma in_range_times_give_well_formed_timestamps_witness :
  exists req,
    checkAvailability "2025-12-24" "09:00" 30 "primary" = Some req /\
    iso8601_wf (timeMin req) = true /\
    iso8601_wf (timeMax req) = true.
Proof.
  apply (in_range_times_give_well_formed_timestamps "2025-12-24" "09:00" 30
           "primary" 2025 12 24 9 0); try reflexivity; lia.
Defined.

End CalendarReplyFacts.
